(** * Atlas / Hindsight: snapshot store, restore engine and diff viewer

    A shallow embedding of the extension's [SnapshotManager]
    (snapshotManager.ts, the version with [restoreSnapshot]), of the ignore
    rule of its [FileWatcher] (fileWatcher.ts) and of its [DiffViewer]
    (diffViewer.ts), with the properties of the snapshot store, of the
    backup-then-restore protocol and of the diff rendering. *)

From Stdlib Require Import ZArith Lia Bool List String Ascii DecimalString.
From Stdlib Require Import Sorting.Sorted Sorting.Permutation.
From stdpp Require Import gmap strings list.

Local Open Scope string_scope.
Local Open Scope Z_scope.

(** ** JavaScript string primitives used by the sources *)

Module JsString.

(** [s.includes(pat)]: [pat] occurs somewhere in [s]. *)
Fixpoint includes (s pat : string) : bool :=
  String.prefix pat s ||
  match s with
  | EmptyString => false
  | String _ s' => includes s' pat
  end.

(** [s.endsWith(suf)]. *)
Fixpoint endsWith (s suf : string) : bool :=
  String.eqb s suf ||
  match s with
  | EmptyString => false
  | String _ s' => endsWith s' suf
  end.

Fixpoint drop (n : nat) (s : string) : string :=
  match n, s with
  | O, _ => s
  | S _, EmptyString => EmptyString
  | S n', String _ s' => drop n' s'
  end.

(** [s.replace(pat, rep)] with a string pattern: the first occurrence only. *)
Fixpoint replace (pat rep s : string) : string :=
  if String.prefix pat s then rep ++ drop (String.length pat) s
  else match s with
       | EmptyString => EmptyString
       | String c s' => String c (replace pat rep s')
       end.

(** [s.replace(/c/g, '')] for a one-character pattern [c]. *)
Fixpoint removeAll (c : ascii) (s : string) : string :=
  match s with
  | EmptyString => EmptyString
  | String d s' => if Ascii.eqb c d then removeAll c s' else String d (removeAll c s')
  end.

(** [s.slice(a, b)] for [0 <= a <= b]. *)
Definition slice (a b : nat) (s : string) : string :=
  String.substring a (b - a) s.

(** [s.split(sep)] for a one-character separator; the result is never
    empty ([''.split(sep)] is [['']]). *)
Fixpoint split (sep : ascii) (s : string) : list string :=
  match s with
  | EmptyString => [EmptyString]
  | String c s' =>
      if Ascii.eqb c sep then EmptyString :: split sep s'
      else match split sep s' with
           | h :: t => String c h :: t
           | [] => [String c EmptyString]
           end
  end.

(** [parts.join('')]. *)
Definition joinAll (parts : list string) : string := String.concat "" parts.

(** A text is held as its UTF-8 encoding. [buffer.toString('utf8')], which
    [readFile(path, 'utf8')] applies to the bytes of a file, decodes them
    and puts U+FFFD in the place of every maximal ill-formed part; in the
    encoding that is the bytes with EF BF BD in the place of such a part.
    [pending] holds the bytes read of the sequence under way, [needed] the
    number of bytes it still lacks, [lower] and [upper] the bounds of the
    next one. *)
Definition replacement : string :=
  String "239" (String "191" (String "189" EmptyString)).

Fixpoint utf8From (pending : string) (needed : nat) (lower upper : N) (bytes : string)
  : string :=
  match bytes with
  | EmptyString => match needed with O => EmptyString | S _ => replacement end
  | String b rest =>
      let n := N_of_ascii b in
      let start :=
        if (n <=? 127)%N then String b (utf8From EmptyString 0 128 191 rest)
        else if (194 <=? n)%N && (n <=? 223)%N then
          utf8From (String b EmptyString) 1 128 191 rest
        else if (224 <=? n)%N && (n <=? 239)%N then
          utf8From (String b EmptyString) 2
            (if (n =? 224)%N then 160%N else 128%N)
            (if (n =? 237)%N then 159%N else 191%N) rest
        else if (240 <=? n)%N && (n <=? 244)%N then
          utf8From (String b EmptyString) 3
            (if (n =? 240)%N then 144%N else 128%N)
            (if (n =? 244)%N then 143%N else 191%N) rest
        else replacement ++ utf8From EmptyString 0 128 191 rest in
      match needed with
      | O => start
      | S k =>
          if (lower <=? n)%N && (n <=? upper)%N then
            match k with
            | O => pending ++ String b (utf8From EmptyString 0 128 191 rest)
            | S _ => utf8From (pending ++ String b EmptyString) k 128 191 rest
            end
          else replacement ++ start
      end
  end.

Definition utf8Decode (bytes : string) : string := utf8From EmptyString 0 128 191 bytes.

End JsString.

(** ** Ignore rules *)

(** [FileWatcher.shouldIgnoreFile] (fileWatcher.ts): the denylist of live
    file-change capture. *)
Definition watcherIgnorePatterns : list string :=
  [ "node_modules"; ".git"; "dist"; "build"; "out"; ".vscode"; ".DS_Store";
    ".hindsight"; "package-lock.json"; "yarn.lock" ].

Definition shouldIgnoreFile (relativePath : string) : bool :=
  existsb (fun pattern => JsString.includes relativePath pattern) watcherIgnorePatterns.

(** [ignorePatterns] of [SnapshotManager.getAllWorkspaceFiles], and the test
    [ignorePatterns.some(pattern => relativePath.includes(pattern))] of its
    walk. *)
Definition ignorePatterns : list string :=
  [ "node_modules"; ".git"; "dist"; "build"; "out"; ".vscode"; ".hindsight" ].

Definition walkIgnores (relativePath : string) : bool :=
  existsb (fun pattern => JsString.includes relativePath pattern) ignorePatterns.

(** ** Host errors

    What the platform throws: [RangeError] from [Date.prototype.toISOString],
    [SyntaxError] from [JSON.parse], system errors from [fs]. *)

Inductive Error :=
  | RangeError (message : string)
  | SyntaxError (message : string)
  | SystemError (code : string) (message : string).

(** [error.message] *)
Definition errorMessage (e : Error) : string :=
  match e with
  | RangeError m => m
  | SyntaxError m => m
  | SystemError _ m => m
  end.

(** ** JavaScript [Date]

    A [Date] holds a time value: an integral number of milliseconds since
    1970-01-01T00:00:00Z within +-8.64e15, or NaN (an invalid date). *)

Module JsDate.

Inductive Date :=
  | Instant (t : Z)
  | Invalid.

Definition msPerDay : Z := 86400000.
Definition maxTime : Z := 8640000000000000.

Definition inRange (t : Z) : bool := (- maxTime <=? t) && (t <=? maxTime).

(** Proleptic Gregorian calendar, days counted from 1970-01-01. The year
    starts in March inside a 400-year era of 146097 days. *)
Definition civilOfDoe (doe : Z) : Z * Z * Z :=
  let yoe := (doe - doe / 1460 + doe / 36524 - doe / 146096) / 365 in
  let doy := doe - (365 * yoe + yoe / 4 - yoe / 100) in
  let mp := (5 * doy + 2) / 153 in
  let d := doy - (153 * mp + 2) / 5 + 1 in
  let m := if mp <? 10 then mp + 3 else mp - 9 in
  (yoe, m, d).

Definition doeOfCivil (yoe m d : Z) : Z :=
  let doy := (153 * (if m >? 2 then m - 3 else m + 9) + 2) / 5 + d - 1 in
  yoe * 365 + yoe / 4 - yoe / 100 + doy.

Definition civilFromDays (z : Z) : Z * Z * Z :=
  let era := (z + 719468) / 146097 in
  let '(yoe, m, d) := civilOfDoe ((z + 719468) mod 146097) in
  (if m <=? 2 then yoe + era * 400 + 1 else yoe + era * 400, m, d).

Definition daysFromCivil (y m d : Z) : Z :=
  let y' := if m <=? 2 then y - 1 else y in
  (y' / 400) * 146097 + doeOfCivil (y' mod 400) m d - 719468.

(** Decimal digits are the characters 48 to 57. *)
Definition digitChar (n : Z) : ascii := ascii_of_N (48 + Z.to_N n).

Definition digitVal (c : ascii) : option Z :=
  let code := N_of_ascii c in
  if ((48 <=? code) && (code <=? 57))%N then Some (Z.of_N code - 48) else None.

(** [fixed w n rest]: the [w] low decimal digits of [n], zero padded, in
    front of [rest]. *)
Fixpoint fixed (w : nat) (n : Z) (rest : string) : string :=
  match w with
  | O => rest
  | S w' => fixed w' (n / 10) (String (digitChar (n mod 10)) rest)
  end.

(** Reads exactly [w] decimal digits. *)
Fixpoint readDigits (w : nat) (acc : Z) (s : string) : option (Z * string) :=
  match w with
  | O => Some (acc, s)
  | S w' =>
      match s with
      | EmptyString => None
      | String c s' =>
          match digitVal c with
          | Some d => readDigits w' (10 * acc + d) s'
          | None => None
          end
      end
  end.

Definition expect (c : ascii) (s : string) : option string :=
  match s with
  | String d s' => if Ascii.eqb c d then Some s' else None
  | EmptyString => None
  end.

(** The year of the ISO format: four digits for 0..9999, otherwise a sign
    and six digits. *)
Definition yearString (y : Z) (rest : string) : string :=
  if (0 <=? y) && (y <=? 9999) then fixed 4 y rest
  else if y <? 0 then String "-" (fixed 6 (- y) rest)
  else String "+" (fixed 6 y rest).

(** [HH:mm:ss] of a number of milliseconds within a day. *)
Definition clockString (tod : Z) (rest : string) : string :=
  fixed 2 (tod / 3600000)
    (String ":" (fixed 2 (tod / 60000 mod 60)
       (String ":" (fixed 2 (tod / 1000 mod 60) rest)))).

(** [Date.prototype.toISOString]: [YYYY-MM-DDTHH:mm:ss.sssZ] in UTC; throws
    a [RangeError] on an invalid date. *)
Definition toISOString (d : Date) : Error + string :=
  match d with
  | Invalid => inl (RangeError "Invalid time value")
  | Instant t =>
      if inRange t then
        let '(y, m, dd) := civilFromDays (t / msPerDay) in
        let tod := t mod msPerDay in
        inr (yearString y
               (String "-" (fixed 2 m
                  (String "-" (fixed 2 dd
                     (String "T" (clockString tod
                        (String "." (fixed 3 (tod mod 1000) "Z")))))))))
      else inl (RangeError "Invalid time value")
  end.

Definition readYear (s : string) : option (Z * string) :=
  match s with
  | EmptyString => None
  | String c s' =>
      if Ascii.eqb c "+" then readDigits 6 0 s'
      else if Ascii.eqb c "-" then
        match readDigits 6 0 s' with
        | Some (y, r) => if y =? 0 then None else Some (- y, r)
        | None => None
        end
      else readDigits 4 0 s
  end.

(** The date-time format that [toISOString] emits, read back to a time
    value. *)
Definition parseISO (s : string) : option Z :=
  '(y, s) ← readYear s;
  s ← expect "-" s;
  '(m, s) ← readDigits 2 0 s;
  s ← expect "-" s;
  '(d, s) ← readDigits 2 0 s;
  s ← expect "T" s;
  '(hh, s) ← readDigits 2 0 s;
  s ← expect ":" s;
  '(mi, s) ← readDigits 2 0 s;
  s ← expect ":" s;
  '(ss, s) ← readDigits 2 0 s;
  s ← expect "." s;
  '(ms, s) ← readDigits 3 0 s;
  s ← expect "Z" s;
  if negb (String.eqb s "") then None
  else if negb ((1 <=? m) && (m <=? 12) && (1 <=? d) && (d <=? 31)
                && (hh <=? 23) && (mi <=? 59) && (ss <=? 59)) then None
  else
    let t := daysFromCivil y m d * msPerDay
             + hh * 3600000 + mi * 60000 + ss * 1000 + ms in
    if inRange t then Some t else None.

(** [new Date(text)]. Text in the format above gives its instant; any other
    text gives an invalid date (the further formats an engine may accept
    are implementation-defined and never written by this program). *)
Definition ofString (s : string) : Date :=
  match parseISO s with
  | Some t => Instant t
  | None => Invalid
  end.

(** [Date.prototype.toTimeString]: the local time of day, then the zone.
    [tzOffset] is the local zone's offset from UTC in minutes (positive
    east of Greenwich) and [zone] its name. *)
Definition toTimeString (tzOffset : Z) (zone : string) (d : Date) : string :=
  match d with
  | Invalid => "Invalid Date"
  | Instant t =>
      let tod := (t + tzOffset * 60000) mod msPerDay in
      clockString tod
        (" GMT" ++ String (if tzOffset <? 0 then "-"%char else "+"%char)
           (fixed 2 (Z.abs tzOffset / 60)
              (fixed 2 (Z.abs tzOffset mod 60) (" (" ++ zone ++ ")"))))
  end.

End JsDate.

(** ** Data model ([types.ts]) *)

Inductive SnapshotTrigger := file_save | file_create | file_delete | manual | auto.

Record FileSnapshot := {
  path : string;      (* relative path from the workspace root *)
  content : string;   (* a text, held as its UTF-8 encoding *)
  size : Z
}.

Record Snapshot := {
  id : string;
  timestamp : JsDate.Date;
  trigger : SnapshotTrigger;
  files : list FileSnapshot;
  gitCommit : option string
}.

(** What is saved to disk: the timestamp is an ISO string. *)
Record StoredSnapshot := {
  stored_id : string;
  stored_timestamp : string;
  stored_trigger : SnapshotTrigger;
  stored_files : list FileSnapshot;
  stored_gitCommit : option string
}.

(** The result of [restoreSnapshot]:
    [{ success: boolean; backupId?: string; error?: string }]. *)
Record RestoreResult := {
  success : bool;
  backupId : option string;
  error : option string
}.

(** ** The file system

    The workspace is a directory tree on a POSIX file system whose names
    are compared byte by byte, without symbolic links. A path inside it is
    the list of its segments; [relativePath] prints it the way
    [path.relative] does.

    [resolvePath] reads a relative path back, for [path.join(workspacePath,
    p)]: it splits at the separator and folds nothing, which is what
    [path.join] does on a path whose segments are all file names. On a path
    with an empty segment, with [.] or with [..], [path.join] folds the
    segment away and may leave the workspace; such a path is outside this
    model, and the properties that compare paths or follow a write assume
    the paths at hand to be [tidy] (defined with the properties). *)

#[warnings="-register-all"]
Inductive Node :=
  | File (text : string) (readable : bool)
  | Dir (entries : list (string * Node)) (listable : bool)
  | Special.   (* neither [isFile()] nor [isDirectory()]: a socket, a device *)

Definition relativePath (segs : list string) : string := String.concat "/" segs.

Definition resolvePath (p : string) : list string := JsString.split "/" p.

(** [path.dirname] *)
Definition dirname (segs : list string) : list string := removelast segs.

Fixpoint entryLookup (name : string) (es : list (string * Node)) : option Node :=
  match es with
  | [] => None
  | (n, x) :: es' => if String.eqb name n then Some x else entryLookup name es'
  end.

Fixpoint entryUpdate (name : string) (x : Node) (es : list (string * Node))
  : list (string * Node) :=
  match es with
  | [] => []
  | (n, y) :: es' =>
      if String.eqb name n then (n, x) :: es' else (n, y) :: entryUpdate name x es'
  end.

Fixpoint lookupNode (segs : list string) (n : Node) : option Node :=
  match segs with
  | [] => Some n
  | s :: rest =>
      match n with
      | Dir es _ =>
          match entryLookup s es with
          | Some child => lookupNode rest child
          | None => None
          end
      | _ => None
      end
  end.

(** The text of the regular file at [segs], if there is one. *)
Definition fileAt (segs : list string) (n : Node) : option string :=
  match lookupNode segs n with
  | Some (File c _) => Some c
  | _ => None
  end.

Definition ENOENT := SystemError "ENOENT" "no such file or directory".
Definition EACCES := SystemError "EACCES" "permission denied".
Definition ENOTDIR := SystemError "ENOTDIR" "not a directory".
Definition EISDIR := SystemError "EISDIR" "illegal operation on a directory".

(** [fs.mkdirSync(dir, { recursive: true })]: creates [segs] and its missing
    ancestors below [n]. *)
Fixpoint mkdirp (segs : list string) (n : Node) : Error + Node :=
  match n with
  | Dir es l =>
      match segs with
      | [] => inr n
      | d :: rest =>
          match entryLookup d es with
          | Some child =>
              match mkdirp rest child with
              | inr child' => inr (Dir (entryUpdate d child' es) l)
              | inl e => inl e
              end
          | None =>
              match mkdirp rest (Dir [] true) with
              | inr child' => inr (Dir (es ++ [(d, child')]) l)
              | inl e => inl e
              end
          end
      end
  | _ => inl ENOTDIR
  end.

(** [fs.promises.writeFile(filePath, content, 'utf8')] below [n]: creates
    the file or replaces its text; the directory must exist. *)
Fixpoint writeNode (segs : list string) (c : string) (n : Node) : Error + Node :=
  match n with
  | Dir es l =>
      match segs with
      | [] => inl EISDIR
      | [name] =>
          match entryLookup name es with
          | None => inr (Dir (es ++ [(name, File c true)]) l)
          | Some (File _ r) => inr (Dir (entryUpdate name (File c r) es) l)
          | Some _ => inl EISDIR
          end
      | d :: rest =>
          match entryLookup d es with
          | Some child =>
              match writeNode rest c child with
              | inr child' => inr (Dir (entryUpdate d child' es) l)
              | inl e => inl e
              end
          | None => inl ENOENT
          end
      end
  | _ => inl ENOTDIR
  end.

(** The bytes of the file at [segs], as [fs] reads them. *)
Definition readNode (segs : list string) (n : Node) : Error + string :=
  match lookupNode segs n with
  | Some (File c true) => inr c
  | Some (File _ false) => inl EACCES
  | Some _ => inl EISDIR
  | None => inl ENOENT
  end.

(** [(await fs.promises.stat(filePath)).size]; files are byte strings. *)
Definition statSize (segs : list string) (n : Node) : Error + Z :=
  match lookupNode segs n with
  | Some (File c _) => inr (Z.of_nat (String.length c))
  | Some _ => inr 0
  | None => inl ENOENT
  end.

(** The snapshots directory [.hindsight/snapshots] lies in the workspace
    and is kept apart from the tree [root], which is the workspace without
    it: the walk never enters it (pattern [.hindsight]), the watcher ignores
    it, and a file in it is reached by its name, [path.join(snapshotsDir,
    id + '.json')]. That is the file of that name when the name is a file
    name; an identifier with a separator leads elsewhere, and a capture
    whose path leads into [.hindsight] is written into this directory, not
    into [root]: both are outside this model, and the properties that
    depend on it assume identifiers that make file names and captures at
    workspace files ([fileName], [workspaceFile], defined with the
    properties).

    A file there is text, taken up to what [JSON.parse] makes of it: either
    the text of a [StoredSnapshot] ([JSON.stringify] writes such a text,
    leaving out an undefined [gitCommit]) or a text on which [JSON.parse]
    throws. [loadSnapshot] trusts the declared type of what it parses: on
    JSON of another shape it returns an object that is no [Snapshot], with
    undefined fields. Such a record is outside this model; a property whose
    hypothesis says what [loadSnapshot] or [getAllSnapshots] returns, a
    [Snapshot] or none, does not speak of it. *)
Inductive JsonText :=
  | TextOf (stored : StoredSnapshot)
  | Garbled.

Inductive DiskFile :=
  | Plain (text : JsonText)
  | Locked.   (* present, but reading it fails *)

Definition JSON_stringify (stored : StoredSnapshot) : JsonText := TextOf stored.

Definition JSON_parse (text : JsonText) : Error + StoredSnapshot :=
  match text with
  | TextOf stored => inr stored
  | Garbled => inl (SyntaxError "Unexpected token in JSON")
  end.

(** Mutations of the disk, in the order they happen. *)
Inductive Event :=
  | EvPut (fileName : string) (text : JsonText)
  | EvUnlink (fileName : string)
  | EvMkdir (dir : list string)
  | EvWrite (file : list string) (text : string).

Record World := {
  root : Node;                          (* the workspace directory *)
  snapshotsDir : gmap string DiskFile;  (* file name -> file *)
  snapshotsWritable : bool;
  snapshotsListable : bool;
  now : Z;                              (* the clock, ms since the epoch *)
  tzOffset : Z;                         (* local zone, minutes east of UTC *)
  tzName : string;
  randomText : string;                  (* [Math.random().toString(16)] *)
  journal : list Event
}.

Definition setRoot (r : Node) (ev : Event) (w : World) : World :=
  {| root := r; snapshotsDir := snapshotsDir w;
     snapshotsWritable := snapshotsWritable w;
     snapshotsListable := snapshotsListable w;
     now := now w; tzOffset := tzOffset w; tzName := tzName w;
     randomText := randomText w; journal := journal w ++ [ev] |}.

Definition setSnapshotsDir (d : gmap string DiskFile) (ev : Event) (w : World) : World :=
  {| root := root w; snapshotsDir := d;
     snapshotsWritable := snapshotsWritable w;
     snapshotsListable := snapshotsListable w;
     now := now w; tzOffset := tzOffset w; tzName := tzName w;
     randomText := randomText w; journal := journal w ++ [ev] |}.

(** ** Computations: state and exceptions *)

Definition M (A : Type) : Type := World -> (Error + A) * World.

#[global] Instance M_ret : MRet M := fun A x w => (inr x, w).

#[global] Instance M_bind : MBind M := fun A B f m w =>
  match m w with
  | (inr x, w') => f x w'
  | (inl e, w') => (inl e, w')
  end.

Definition throw {A} (e : Error) : M A := fun w => (inl e, w).

(** [try { body } catch (error) { handler }] *)
Definition tryCatch {A} (body : M A) (handler : Error -> M A) : M A := fun w =>
  match body w with
  | (inl e, w') => handler e w'
  | r => r
  end.

Definition liftResult {A} (r : Error + A) : M A := fun w => (r, w).

(** [for (const x of xs) { body }] *)
Fixpoint forEach {A} (xs : list A) (body : A -> M unit) : M unit :=
  match xs with
  | [] => mret tt
  | x :: xs' => body x ≫= fun _ => forEach xs' body
  end.

(** *** Host primitives *)

(** [new Date()] *)
Definition newDate : M JsDate.Date := fun w => (inr (JsDate.Instant (now w)), w).

(** [Math.random().toString(16)] *)
Definition mathRandomToString16 : M string := fun w => (inr (randomText w), w).

Definition toTimeString (d : JsDate.Date) : M string := fun w =>
  (inr (JsDate.toTimeString (tzOffset w) (tzName w) d), w).

(** [fs] on the snapshots directory *)
Definition readSnapshotFile (fileName : string) : M JsonText := fun w =>
  match snapshotsDir w !! fileName with
  | Some (Plain text) => (inr text, w)
  | Some Locked => (inl EACCES, w)
  | None => (inl ENOENT, w)
  end.

Definition writeSnapshotFile (fileName : string) (text : JsonText) : M unit := fun w =>
  if snapshotsWritable w
  then (inr tt, setSnapshotsDir (<[fileName := Plain text]> (snapshotsDir w))
                  (EvPut fileName text) w)
  else (inl EACCES, w).

Definition unlinkSnapshotFile (fileName : string) : M unit := fun w =>
  match snapshotsDir w !! fileName with
  | Some _ =>
      if snapshotsWritable w
      then (inr tt, setSnapshotsDir (delete fileName (snapshotsDir w))
                      (EvUnlink fileName) w)
      else (inl EACCES, w)
  | None => (inl ENOENT, w)
  end.

Definition readdirSnapshots : M (list string) := fun w =>
  if snapshotsListable w
  then (inr (map fst (map_to_list (snapshotsDir w))), w)
  else (inl EACCES, w).

(** [fs] on the workspace *)

(** [fs.promises.readFile(filePath, 'utf8')]: the bytes, decoded. *)
Definition readFile (segs : list string) : M string := fun w =>
  (match readNode segs (root w) with
   | inr bytes => inr (JsString.utf8Decode bytes)
   | inl e => inl e
   end, w).

Definition stat (segs : list string) : M Z := fun w =>
  (statSize segs (root w), w).

Definition existsSync (segs : list string) : M bool := fun w =>
  (inr (match lookupNode segs (root w) with Some _ => true | None => false end), w).

Definition mkdirSync (segs : list string) : M unit := fun w =>
  match mkdirp segs (root w) with
  | inr r => (inr tt, setRoot r (EvMkdir segs) w)
  | inl e => (inl e, w)
  end.

Definition writeFile (segs : list string) (c : string) : M unit := fun w =>
  match writeNode segs c (root w) with
  | inr r => (inr tt, setRoot r (EvWrite segs c) w)
  | inl e => (inl e, w)
  end.

(** ** [SnapshotManager] ([snapshotManager.ts]) *)

(** [Array.prototype.sort()] on strings: ascending by code unit. *)
Fixpoint insertSorted (x : string) (l : list string) : list string :=
  match l with
  | [] => [x]
  | y :: l' => if String.leb x y then x :: l else y :: insertSorted x l'
  end.

Definition sortStrings (l : list string) : list string :=
  fold_right insertSorted [] l.

(** [generateSnapshotId]: [snapshot_YYYYMMDD_HHMMSS_randomhex]. *)
Definition generateSnapshotId : M string :=
  now ← newDate;
  iso ← liftResult (JsDate.toISOString now);
  let date := JsString.removeAll "-" (JsString.slice 0 10 iso) in
  local ← toTimeString now;
  let time := JsString.removeAll ":" (JsString.slice 0 8 local) in
  r ← mathRandomToString16;
  let random := JsString.slice 2 8 r in
  mret ("snapshot_" ++ date ++ "_" ++ time ++ "_" ++ random).

(** The persisted form of a snapshot (first statement of [saveSnapshot]). *)
Definition toStored (snapshot : Snapshot) : Error + StoredSnapshot :=
  match JsDate.toISOString (timestamp snapshot) with
  | inr iso =>
      inr {| stored_id := id snapshot;
             stored_timestamp := iso;
             stored_trigger := trigger snapshot;
             stored_files := files snapshot;
             stored_gitCommit := gitCommit snapshot |}
  | inl e => inl e
  end.

(** The snapshot of a persisted form (conversion in [loadSnapshot]). *)
Definition ofStored (stored : StoredSnapshot) : Snapshot :=
  {| id := stored_id stored;
     timestamp := JsDate.ofString (stored_timestamp stored);
     trigger := stored_trigger stored;
     files := stored_files stored;
     gitCommit := stored_gitCommit stored |}.

(** The text [saveSnapshot] writes and the way [loadSnapshot] reads a text. *)
Definition serialize (snapshot : Snapshot) : Error + JsonText :=
  match toStored snapshot with
  | inr stored => inr (JSON_stringify stored)
  | inl e => inl e
  end.

Definition deserialize (text : JsonText) : Error + Snapshot :=
  match JSON_parse text with
  | inr stored => inr (ofStored stored)
  | inl e => inl e
  end.

Definition saveSnapshot (snapshot : Snapshot) : M unit :=
  text ← liftResult (serialize snapshot);
  let filename := id snapshot ++ ".json" in
  writeSnapshotFile filename text.

Definition loadSnapshot (id : string) : M (option Snapshot) :=
  tryCatch
    (content ← readSnapshotFile (id ++ ".json");
     snapshot ← liftResult (deserialize content);
     mret (Some snapshot))
    (fun _ => mret None).

Definition getAllSnapshotIds : M (list string) :=
  tryCatch
    (files ← readdirSnapshots;
     let snapshotIds :=
       map (JsString.replace ".json" "")
           (List.filter (fun f => JsString.endsWith f ".json") files) in
     mret (rev (sortStrings snapshotIds)))
    (fun _ => mret []).

Fixpoint loadEach (ids : list string) : M (list Snapshot) :=
  match ids with
  | [] => mret []
  | i :: ids' =>
      snapshot ← loadSnapshot i;
      rest ← loadEach ids';
      mret (match snapshot with Some s => s :: rest | None => rest end)
  end.

Definition getAllSnapshots : M (list Snapshot) :=
  ids ← getAllSnapshotIds;
  loadEach ids.

Definition deleteSnapshot (id : string) : M bool :=
  tryCatch
    (unlinkSnapshotFile (id ++ ".json") ≫= fun _ => mret true)
    (fun _ => mret false).

Definition getSnapshotCount : M nat :=
  ids ← getAllSnapshotIds;
  mret (List.length ids).

(** [createSnapshot(filePath, trigger)]; [filePath] is given by its segments
    below the workspace. *)
Definition createSnapshot (filePath : list string) (trigger : SnapshotTrigger)
  : M (option Snapshot) :=
  tryCatch
    (content ← readFile filePath;
     size ← stat filePath;
     let fileSnapshot :=
       {| path := relativePath filePath; content := content; size := size |} in
     id ← generateSnapshotId;
     now ← newDate;
     let snapshot :=
       {| id := id; timestamp := now; trigger := trigger;
          files := [fileSnapshot]; gitCommit := None |} in
     saveSnapshot snapshot ≫= fun _ =>
     mret (Some snapshot))
    (fun _ => mret None).

(** [walkDir] of [getAllWorkspaceFiles]: [dir] is the directory being read,
    [n] its node. An entry whose relative path contains an ignore pattern
    is skipped, a directory is walked, a regular file is collected. *)
Fixpoint walkDir (dir : list string) (n : Node) : Error + list (list string) :=
  match n with
  | Dir entries true =>
      (fix walkEntries (es : list (string * Node)) : Error + list (list string) :=
         match es with
         | [] => inr []
         | (name, entry) :: es' =>
             let fullPath := (dir ++ [name])%list in
             if walkIgnores (relativePath fullPath) then walkEntries es'
             else
               match entry with
               | Dir _ _ =>
                   match walkDir fullPath entry with
                   | inr found =>
                       match walkEntries es' with
                       | inr more => inr (found ++ more)%list
                       | inl e => inl e
                       end
                   | inl e => inl e
                   end
               | File _ _ =>
                   match walkEntries es' with
                   | inr more => inr (fullPath :: more)
                   | inl e => inl e
                   end
               | Special => walkEntries es'
               end
         end) entries
  | Dir _ false => inl EACCES
  | _ => inl ENOTDIR
  end.

Definition getAllWorkspaceFiles : M (list (list string)) := fun w =>
  (walkDir [] (root w), w).

(** The body of the loop of [createBackupBeforeRestore]: a file that cannot
    be read is skipped. *)
Definition backupFile (filePath : list string) : M (list FileSnapshot) :=
  tryCatch
    (content ← readFile filePath;
     size ← stat filePath;
     mret [ {| path := relativePath filePath; content := content; size := size |} ])
    (fun _ => mret []).

Fixpoint backupFiles (allFiles : list (list string)) : M (list FileSnapshot) :=
  match allFiles with
  | [] => mret []
  | f :: rest =>
      one ← backupFile f;
      more ← backupFiles rest;
      mret (one ++ more)%list
  end.

Definition createBackupBeforeRestore : M string :=
  inner ← generateSnapshotId;
  let backupId := "backup_" ++ inner in
  allFiles ← getAllWorkspaceFiles;
  fileSnapshots ← backupFiles allFiles;
  now ← newDate;
  let backupSnapshot :=
    {| id := backupId; timestamp := now; trigger := manual;
       files := fileSnapshots; gitCommit := None |} in
  saveSnapshot backupSnapshot ≫= fun _ =>
  mret backupId.

(** The body of the loop of [restoreSnapshot]: the file is the one at the
    segments of the path of the capture. *)
Definition restoreFile (file : FileSnapshot) : M unit :=
  let filePath := resolvePath (path file) in
  let dir := dirname filePath in
  existsSync dir ≫= fun present : bool =>
  (if present then mret tt else mkdirSync dir) ≫= fun _ =>
  writeFile filePath (content file).

Definition restoreSnapshot (snapshotId : string) : M RestoreResult :=
  tryCatch
    (snapshot ← loadSnapshot snapshotId;
     match snapshot with
     | None =>
         mret {| success := false; backupId := None;
                 error := Some "Snapshot not found" |}
     | Some snapshot =>
         backupId ← createBackupBeforeRestore;
         forEach (files snapshot) restoreFile ≫= fun _ =>
         mret {| success := true; backupId := Some backupId; error := None |}
     end)
    (fun e =>
       mret {| success := false; backupId := None;
               error := Some (errorMessage e) |}).

(** ** [DiffViewer] ([diffViewer.ts]) *)

(** [Diff.Change] of the [diff] package. *)
Record Change := {
  value : string;
  added : bool;
  removed : bool
}.

(** One element of the array [diffs] of [_getHtmlForDiff]. *)
Record FileDiff := {
  diffPath : string;
  oldContent : option string;
  newContent : option string;
  diffHtml : string
}.

Definition nl : string := String "010"%char EmptyString.
Definition dquote : string := String "034"%char EmptyString.

(** [escapeHtml] *)
Fixpoint escapeHtml (text : string) : string :=
  match text with
  | EmptyString => EmptyString
  | String c rest =>
      (if Ascii.eqb c "&" then "&amp;"
       else if Ascii.eqb c "<" then "&lt;"
       else if Ascii.eqb c ">" then "&gt;"
       else if Ascii.eqb c "034" then "&quot;"
       else if Ascii.eqb c "'" then "&#039;"
       else String c EmptyString) ++ escapeHtml rest
  end.

(** [part.value.split('\n').filter(line => line !== '')] *)
Definition partLines (part : Change) : list string :=
  List.filter (fun line => negb (String.eqb line EmptyString))
    (JsString.split "010" (value part)).

Definition diffLineHtml (kind line : string) : string :=
  "<div class=" ++ dquote ++ "diff-line diff-" ++ kind ++ dquote ++ ">"
  ++ escapeHtml line ++ "</div>".

(** [generateDiffHtml] *)
Definition generateDiffHtml (diffResult : list Change) : string :=
  JsString.joinAll
    (map (fun part =>
            let lines := partLines part in
            if added part then JsString.joinAll (map (diffLineHtml "added") lines)
            else if removed part then JsString.joinAll (map (diffLineHtml "removed") lines)
            else JsString.joinAll (map (diffLineHtml "unchanged") lines))
         diffResult).

Definition optionStringEqb (a b : option string) : bool :=
  match a, b with
  | Some x, Some y => String.eqb x y
  | None, None => true
  | _, _ => false
  end.

Definition fileDiffCard (diff : FileDiff) (status statusLabel : string) : string :=
  nl ++
  "            <div class=" ++ dquote ++ "file-diff" ++ dquote ++ ">" ++ nl ++
  "                <div class=" ++ dquote ++ "file-header" ++ dquote ++ ">" ++ nl ++
  "                    📄 " ++ diffPath diff ++ nl ++
  "                    <span class=" ++ dquote ++ "file-status status-" ++ status
     ++ dquote ++ ">" ++ statusLabel ++ "</span>" ++ nl ++
  "                </div>" ++ nl ++
  "                <div class=" ++ dquote ++ "diff-content" ++ dquote ++ ">" ++ nl ++
  "                    " ++
     (if String.eqb (diffHtml diff) EmptyString
      then "<div class=" ++ dquote ++ "no-changes" ++ dquote ++ ">No changes</div>"
      else diffHtml diff) ++ nl ++
  "                </div>" ++ nl ++
  "            </div>" ++ nl ++
  "        ".

(** [generateFileDiffHtml] *)
Definition generateFileDiffHtml (diff : FileDiff) : string :=
  match oldContent diff with
  | None => fileDiffCard diff "added" "ADDED"
  | Some _ =>
      match newContent diff with
      | None => fileDiffCard diff "deleted" "DELETED"
      | Some _ =>
          if optionStringEqb (oldContent diff) (newContent diff)
          then EmptyString   (* skip unchanged files *)
          else fileDiffCard diff "modified" "MODIFIED"
      end
  end.

(** [Set.prototype.add]: a set iterates in insertion order. *)
Definition setAdd (x : string) (set : list string) : list string :=
  if existsb (String.eqb x) set then set else (set ++ [x])%list.

Definition allFilePaths (oldSnapshot newSnapshot : Snapshot) : list string :=
  fold_left (fun set f => setAdd (path f) set) (files newSnapshot)
    (fold_left (fun set f => setAdd (path f) set) (files oldSnapshot) []).

(** [snapshot.files.find(f => f.path === filePath)] *)
Definition findFile (snapshot : Snapshot) (filePath : string) : option FileSnapshot :=
  List.find (fun f => String.eqb (path f) filePath) (files snapshot).

Section DiffViewer.

(** [Diff.diffLines] of the [diff] package, and the page around the file
    diffs (style sheet and the two snapshot boxes, printed with the host's
    [toLocaleString]). *)
Variable diffLines : string -> string -> list Change.
Variable pageHead : Snapshot -> Snapshot -> string.

Definition fileDiffOf (oldSnapshot newSnapshot : Snapshot) (filePath : string) : FileDiff :=
  let oldFile := findFile oldSnapshot filePath in
  let newFile := findFile newSnapshot filePath in
  let oldText := match oldFile with Some f => content f | None => EmptyString end in
  let newText := match newFile with Some f => content f | None => EmptyString end in
  let diffResult := diffLines oldText newText in
  {| diffPath := filePath;
     oldContent := match oldFile with Some _ => Some oldText | None => None end;
     newContent := match newFile with Some _ => Some newText | None => None end;
     diffHtml := generateDiffHtml diffResult |}.

(** The array [diffs] of [_getHtmlForDiff]. *)
Definition diffs (oldSnapshot newSnapshot : Snapshot) : list FileDiff :=
  map (fileDiffOf oldSnapshot newSnapshot) (allFilePaths oldSnapshot newSnapshot).

(** [diffs.map(diff => this.generateFileDiffHtml(diff)).join('')] *)
Definition fileDiffsHtml (oldSnapshot newSnapshot : Snapshot) : string :=
  JsString.joinAll (map generateFileDiffHtml (diffs oldSnapshot newSnapshot)).

Definition _getHtmlForDiff (oldSnapshot newSnapshot : Snapshot) : string :=
  pageHead oldSnapshot newSnapshot ++ fileDiffsHtml oldSnapshot newSnapshot
  ++ nl ++ "        </body>" ++ nl ++ "        </html>".

End DiffViewer.

(** ** [FileWatcher] ([fileWatcher.ts]) *)

Inductive FileEvent := created | changed | deleted.

Definition eventName (eventType : FileEvent) : string :=
  match eventType with
  | created => "created"
  | changed => "changed"
  | deleted => "deleted"
  end.

(** What the extension shows: [vscode.window.show...Message] and
    [setStatusBarMessage]. *)
Inductive Notice :=
  | InformationMessage (text : string)
  | WarningMessage (text : string)
  | ErrorMessage (text : string)
  | StatusBarMessage (text : string).

(** [path.basename] *)
Definition basename (segs : list string) : string := List.last segs EmptyString.

Module FileWatcher.

(** The fields of a [FileWatcher]; [watcher] tells whether the
    [vscode.FileSystemWatcher] is there. The storage directories that the
    constructor of its [SnapshotManager] creates are not modelled. *)
Record State := {
  watcher : bool;
  filesChanged : nat;
  lastChangeTime : option string
}.

Definition create : State :=
  {| watcher := false; filesChanged := 0; lastChangeTime := None |}.

Definition start (self : State) : State :=
  {| watcher := true; filesChanged := filesChanged self;
     lastChangeTime := lastChangeTime self |}.

Definition stop (self : State) : State :=
  {| watcher := false; filesChanged := filesChanged self;
     lastChangeTime := lastChangeTime self |}.

Definition getStats (self : State) : nat * option string :=
  (filesChanged self, lastChangeTime self).

Definition createSnapshotForFile (filePath : list string) (eventType : FileEvent)
  : M unit :=
  let trigger := match eventType with created => file_create | _ => file_save end in
  createSnapshot filePath trigger ≫= fun _ => mret tt.

Section Host.

(** [Date.prototype.toLocaleTimeString], which depends on the locale. *)
Variable toLocaleTimeString : JsDate.Date -> string.

(** [onFileChanged(uri, eventType)]; the file is given by its segments below
    the workspace. The snapshot task it starts is run to its end. *)
Definition onFileChanged (self : State) (filePath : list string) (eventType : FileEvent)
  : M (State * list Notice) :=
  let fileName := basename filePath in
  let relative := relativePath filePath in
  if shouldIgnoreFile relative then mret (self, [])
  else
    now ← newDate;
    let self' :=
      {| watcher := watcher self; filesChanged := S (filesChanged self);
         lastChangeTime := Some (toLocaleTimeString now) |} in
    let shown := [ StatusBarMessage ("Hindsight: " ++ fileName ++ " " ++ eventName eventType) ] in
    match eventType with
    | changed | created =>
        createSnapshotForFile filePath eventType ≫= fun _ => mret (self', shown)
    | deleted => mret (self', shown)
    end.

(** A series of file events, one after the other. *)
Fixpoint onFileEvents (self : State) (events : list (list string * FileEvent))
  : M State :=
  match events with
  | [] => mret self
  | (filePath, eventType) :: rest =>
      onFileChanged self filePath eventType ≫= fun r => onFileEvents (fst r) rest
  end.

End Host.

End FileWatcher.

(** ** The script of the timeline view ([timelinePanel.ts]) *)

(** What the view posts to the extension. *)
Inductive ViewMessage :=
  | ViewSnapshot (snapshotId : string)
  | CompareDiff (oldSnapshotId newSnapshotId : string)
  | Refresh
  | RestoreSnapshot (snapshotId : string).

Module TimelineView.

(** The variables of the script, and the parts of the page it switches:
    the text of the compare button and whether the detail pane shows. *)
Record State := {
  selectedSnapshotId : option string;
  compareMode : bool;
  compareOld : option string;
  compareNew : option string;
  compareButton : string;
  detailVisible : bool
}.

Definition initial : State :=
  {| selectedSnapshotId := None; compareMode := false;
     compareOld := None; compareNew := None;
     compareButton := "Compare Mode"; detailVisible := false |}.

(** A value counts as true unless it is [null] or the empty string. *)
Definition truthy (v : option string) : bool :=
  match v with
  | Some s => negb (String.eqb s EmptyString)
  | None => false
  end.

Definition toggleCompareMode (st : State) : State :=
  if negb (compareMode st) then
    {| selectedSnapshotId := selectedSnapshotId st; compareMode := true;
       compareOld := None; compareNew := None;
       compareButton := "Exit Compare Mode"; detailVisible := false |}
  else
    {| selectedSnapshotId := selectedSnapshotId st; compareMode := false;
       compareOld := None; compareNew := None;
       compareButton := "Compare Mode"; detailVisible := detailVisible st |}.

Definition setCompare (st : State) (old new : option string) : State :=
  {| selectedSnapshotId := selectedSnapshotId st; compareMode := compareMode st;
     compareOld := old; compareNew := new;
     compareButton := compareButton st; detailVisible := detailVisible st |}.

Definition selectSnapshot (st : State) (snapshotId : string)
  : State * list ViewMessage :=
  if compareMode st then
    if negb (truthy (compareOld st)) then
      (setCompare st (Some snapshotId) (compareNew st), [])
    else if negb (truthy (compareNew st)) then
      (setCompare st None None,
       [ CompareDiff (default EmptyString (compareOld st)) snapshotId ])
    else
      (setCompare st (Some snapshotId) None, [])
  else
    ({| selectedSnapshotId := Some snapshotId; compareMode := compareMode st;
        compareOld := compareOld st; compareNew := compareNew st;
        compareButton := compareButton st; detailVisible := detailVisible st |},
     [ ViewSnapshot snapshotId ]).

Definition refresh : list ViewMessage := [ Refresh ].

Definition restoreSnapshot (snapshotId : string) : list ViewMessage :=
  [ RestoreSnapshot snapshotId ].

(** [displaySnapshot] makes the detail pane visible. *)
Definition displaySnapshot (st : State) : State :=
  {| selectedSnapshotId := selectedSnapshotId st; compareMode := compareMode st;
     compareOld := compareOld st; compareNew := compareNew st;
     compareButton := compareButton st; detailVisible := true |}.

(** The marks [renderTimeline] puts on the card of a snapshot: the classes
    [isSelected], [isCompareOld], [isCompareNew] and the badge
    [compareLabel]. *)
Definition isSelected (st : State) (snapshotId : string) : string :=
  if decide (Some snapshotId = selectedSnapshotId st) then "selected" else EmptyString.

Definition isCompareOld (st : State) (snapshotId : string) : string :=
  if compareMode st && bool_decide (compareOld st = Some snapshotId)
  then "compare-selected" else EmptyString.

Definition isCompareNew (st : State) (snapshotId : string) : string :=
  if compareMode st && bool_decide (compareNew st = Some snapshotId)
  then "compare-selected" else EmptyString.

Definition compareLabel (st : State) (snapshotId : string) : string :=
  if compareMode st && bool_decide (compareOld st = Some snapshotId) then "OLD"
  else if compareMode st && bool_decide (compareNew st = Some snapshotId) then "NEW"
  else EmptyString.

(** What the user does in the view. *)
Inductive Action :=
  | Toggle
  | Select (snapshotId : string)
  | Display.

Definition step (st : State) (a : Action) : State * list ViewMessage :=
  match a with
  | Toggle => (toggleCompareMode st, [])
  | Select snapshotId => selectSnapshot st snapshotId
  | Display => (displaySnapshot st, [])
  end.

Fixpoint run (st : State) (actions : list Action) : State * list ViewMessage :=
  match actions with
  | [] => (st, [])
  | a :: rest =>
      let '(st1, posted) := step st a in
      let '(st2, more) := run st1 rest in
      (st2, (posted ++ more)%list)
  end.

End TimelineView.

(** ** [TimelinePanel] ([timelinePanel.ts]) *)

Module TimelinePanel.

Section Host.

(** [Date.prototype.toLocaleString], which depends on the locale. *)
Variable toLocaleString : JsDate.Date -> string.

(** [restoreSnapshot(snapshotId)]; [choice] is the button the user presses
    in the confirmation dialog, if any. The result tells what is shown and
    whether the timeline is refreshed. *)
Definition restoreSnapshot (choice : option string) (snapshotId : string)
  : M (list Notice * bool) :=
  snapshot ← loadSnapshot snapshotId;
  match snapshot with
  | None => mret ([ ErrorMessage "Snapshot not found" ], false)
  | Some snapshot =>
      let fileList := String.concat ", " (map path (files snapshot)) in
      let message :=
        "Restore to snapshot from " ++ toLocaleString (timestamp snapshot) ++ "?"
        ++ nl ++ nl ++ "Files: " ++ fileList ++ nl ++ nl
        ++ "A backup will be created automatically." in
      if negb (bool_decide (choice = Some "Restore"))
      then mret ([ WarningMessage message ], false)
      else
        result ← restoreSnapshot snapshotId;
        if success result then
          mret ([ WarningMessage message;
                  InformationMessage
                    ("✅ Successfully restored to " ++ toLocaleString (timestamp snapshot)
                     ++ ". Backup saved: " ++ default "undefined" (backupId result)) ],
                true)
        else
          mret ([ WarningMessage message;
                  ErrorMessage ("❌ Failed to restore snapshot: "
                                ++ default "undefined" (error result)) ],
                false)
  end.

End Host.

End TimelinePanel.

(** ** The commands of the extension ([extension.ts]) *)

Definition triggerName (trigger : SnapshotTrigger) : string :=
  match trigger with
  | file_save => "file_save"
  | file_create => "file_create"
  | file_delete => "file_delete"
  | manual => "manual"
  | auto => "auto"
  end.

(** A whole number in a template string. *)
Definition showNat (n : nat) : string := NilEmpty.string_of_uint (Nat.to_uint n).
Definition showZ (z : Z) : string := NilZero.string_of_int (Z.to_int z).

Module Extension.

(** The two variables of the module; [snapshotManager] tells whether the
    manager is there. *)
Record State := {
  fileWatcher : option FileWatcher.State;
  snapshotManager : bool
}.

Definition initial : State := {| fileWatcher := None; snapshotManager := false |}.

(** [activate]: [workspaceFolder] is the first workspace folder, if any. *)
Definition activate (workspaceFolder : option string) : State * list Notice :=
  let shown := [ InformationMessage "Atlas Time Travel is now watching your code!" ] in
  match workspaceFolder with
  | Some _ =>
      ({| fileWatcher := Some (FileWatcher.start FileWatcher.create);
          snapshotManager := true |}, shown)
  | None => (initial, shown)
  end.

(** The command [atlas.startWatching] *)
Definition startWatching (workspaceFolder : option string) (st : State)
  : State * list Notice :=
  match fileWatcher st with
  | Some _ => (st, [ WarningMessage "Atlas is already watching files!" ])
  | None =>
      match workspaceFolder with
      | None =>
          (st, [ ErrorMessage "No workspace folder open. Please open a folder first." ])
      | Some _ =>
          ({| fileWatcher := Some (FileWatcher.start FileWatcher.create);
              snapshotManager := snapshotManager st |},
           [ InformationMessage "Atlas started watching files!" ])
      end
  end.

(** The command [atlas.stopWatching] *)
Definition stopWatching (st : State) : State * list Notice :=
  match fileWatcher st with
  | None => (st, [ WarningMessage "Atlas is not currently watching files." ])
  | Some _ =>
      ({| fileWatcher := None; snapshotManager := snapshotManager st |},
       [ InformationMessage "Atlas stopped watching files." ])
  end.

(** The command [atlas.showStatus] *)
Definition showStatus (st : State) : list Notice :=
  match fileWatcher st with
  | Some watcher =>
      let '(changedCount, lastChange) := FileWatcher.getStats watcher in
      [ InformationMessage
          ("Atlas Status: Active | Files changed: " ++ showNat changedCount
           ++ " | Last change: "
           ++ (if TimelineView.truthy lastChange
               then default EmptyString lastChange else "None")) ]
  | None => [ InformationMessage "Atlas Status: Inactive" ]
  end.

(** [deactivate] stops the watcher and keeps the variable. *)
Definition deactivate (st : State) : State :=
  {| fileWatcher := FileWatcher.stop <$> fileWatcher st;
     snapshotManager := snapshotManager st |}.

(** One entry of the quick pick of [atlas.listSnapshots]. *)
Record QuickPickItem := {
  label : string;
  description : string;
  detail : string;
  snapshot : Snapshot
}.

Section Host.

Variable toLocaleString : JsDate.Date -> string.

Definition quickPickItem (s : Snapshot) : QuickPickItem :=
  let fileList := String.concat ", " (map path (files s)) in
  {| label := "$(history) " ++ toLocaleString (timestamp s);
     description := triggerName (trigger s);
     detail := "Files: " ++ fileList;
     snapshot := s |}.

Definition snapshotDetails (s : Snapshot) : string :=
  let fileDetails :=
    String.concat nl
      (map (fun f => "  - " ++ path f ++ " (" ++ showZ (size f) ++ " bytes)") (files s)) in
  "Snapshot: " ++ id s ++ nl ++ "Time: " ++ toLocaleString (timestamp s) ++ nl
  ++ "Trigger: " ++ triggerName (trigger s) ++ nl ++ "Files:" ++ nl ++ fileDetails.

(** The command [atlas.listSnapshots]; [picked] is the position of the entry
    the user selects in the quick pick, if any. *)
Definition listSnapshots (picked : option nat) (st : State) : M (list Notice) :=
  if negb (snapshotManager st) then mret [ ErrorMessage "Atlas is not initialized." ]
  else
    snapshots ← getAllSnapshots;
    match snapshots with
    | [] =>
        mret [ InformationMessage
                 "No snapshots yet. Edit some files to create snapshots!" ]
    | _ =>
        let items := map quickPickItem snapshots in
        match picked ≫= fun i => nth_error items i with
        | Some selected =>
            mret [ InformationMessage (snapshotDetails (snapshot selected)) ]
        | None => mret []
        end
    end.

End Host.

(** The commands that start and stop watching and show the status. *)
Inductive Command :=
  | StartWatching (workspaceFolder : option string)
  | StopWatching
  | ShowStatus.

Definition execute (st : State) (c : Command) : State * list Notice :=
  match c with
  | StartWatching workspaceFolder => startWatching workspaceFolder st
  | StopWatching => stopWatching st
  | ShowStatus => (st, showStatus st)
  end.

Definition executeAll (st : State) (commands : list Command) : State :=
  fold_left (fun st c => fst (execute st c)) commands st.

End Extension.

(** *** Reference formulations and sample data *)

(** [walkDir] at a listable directory, entry by entry. *)
Fixpoint walkEntries (dir : list string) (es : list (string * Node))
  : Error + list (list string) :=
  match es with
  | [] => inr []
  | (name, entry) :: es' =>
      let fullPath := (dir ++ [name])%list in
      if walkIgnores (relativePath fullPath) then walkEntries dir es'
      else
        match entry with
        | Dir _ _ =>
            match walkDir fullPath entry with
            | inr found =>
                match walkEntries dir es' with
                | inr more => inr (found ++ more)%list
                | inl e => inl e
                end
            | inl e => inl e
            end
        | File _ _ =>
            match walkEntries dir es' with
            | inr more => inr (fullPath :: more)
            | inl e => inl e
            end
        | Special => walkEntries dir es'
        end
  end.

(** The patterns of live capture that the backup walk does not have. *)
Definition watcherOnlyPatterns : list string :=
  [ ".DS_Store"; "package-lock.json"; "yarn.lock" ].

(** The newline-split of a text with only the blank trailing fragment left
    out: the lines of a change segment as the specification words them. *)
Definition linesWithoutTrailingBlank (text : string) : list string :=
  let fragments := JsString.split "010" text in
  if String.eqb (List.last fragments EmptyString) EmptyString
  then removelast fragments
  else fragments.

Definition nonBlank (line : string) : bool := negb (String.eqb line EmptyString).

(** The class of the lines of a change. *)
Definition changeKind (part : Change) : string :=
  if added part then "added" else if removed part then "removed" else "unchanged".

(** Whether the record of [id] is there, readable and parsable. *)
Definition recordReadable (id : string) (w : World) : bool :=
  match snapshotsDir w !! (id ++ ".json") with
  | Some (Plain (TextOf _)) => true
  | _ => false
  end.

(** The host moves on: a later clock reading and fresh entropy. *)
Definition later (t : Z) (random : string) (w : World) : World :=
  {| root := root w; snapshotsDir := snapshotsDir w;
     snapshotsWritable := snapshotsWritable w;
     snapshotsListable := snapshotsListable w;
     now := t; tzOffset := tzOffset w; tzName := tzName w;
     randomText := random; journal := journal w |}.

(** A small workspace on 2024-01-01 at 10:00:00.123 UTC. *)
Definition sampleWorld : World :=
  {| root :=
       Dir [ ("a.txt", File "hello" true);
             ("package-lock.json", File "{}" true);
             ("node_modules", Dir [("x.js", File "x" true)] true);
             ("src", Dir [("app.ts", File "code" true)] true) ] true;
     snapshotsDir := ∅;
     snapshotsWritable := true;
     snapshotsListable := true;
     now := 1704103200123;
     tzOffset := 0;
     tzName := "Coordinated Universal Time";
     randomText := "0.a1b2c3d4e5f6";
     journal := [] |}.

(** A capture at 10:00:00, then, an hour later, a restore of it. *)
Definition afterCapture : World :=
  snd (createSnapshot ["a.txt"] file_save sampleWorld).

Definition afterRestore : World :=
  snd (restoreSnapshot "snapshot_20240101_100000_a1b2c3"
         (later 1704106800456 "0.d4e5f6a7b8c9" afterCapture)).

Definition notFound : RestoreResult :=
  {| success := false; backupId := None; error := Some "Snapshot not found" |}.

(** A mutation of the workspace, as opposed to one of the snapshots
    directory. *)
Definition isWorkspaceEvent (ev : Event) : bool :=
  match ev with
  | EvMkdir _ | EvWrite _ _ => true
  | EvPut _ _ | EvUnlink _ => false
  end.

(** The record [createBackupBeforeRestore] writes when the clock prints as
    [iso], the identifier generated is [inner] and the files captured are
    [captured]. *)
Definition backupRecord (inner iso : string) (captured : list FileSnapshot)
  : StoredSnapshot :=
  {| stored_id := "backup_" ++ inner;
     stored_timestamp := iso;
     stored_trigger := manual;
     stored_files := captured;
     stored_gitCommit := None |}.

(** What an operation on the workspace may do to the world: it leaves the
    snapshots directory alone, appends workspace events to the journal,
    and keeps the text of every file outside [touched]. *)
Definition workspaceOnly (touched : list (list string)) (w w' : World) : Prop :=
  snapshotsDir w' = snapshotsDir w
  /\ (exists evs, journal w' = (journal w ++ evs)%list
                  /\ forallb isWorkspaceEvent evs = true)
  /\ (forall segs, ~ In segs touched -> fileAt segs (root w') = fileAt segs (root w)).

Definition failed (e : Error) : RestoreResult :=
  {| success := false; backupId := None; error := Some (errorMessage e) |}.

Definition restored (backup : string) : RestoreResult :=
  {| success := true; backupId := Some backup; error := None |}.

(** The capture of the file at [segs] whose bytes are [text]: its content
    is the decoding of the bytes, its size their number. *)
Definition captureOf (segs : list string) (text : string) : FileSnapshot :=
  {| path := relativePath segs; content := JsString.utf8Decode text;
     size := Z.of_nat (String.length text) |}.

(** A workspace with a file that cannot be read, and a stored snapshot of
    an earlier text of that file. *)
Definition secretSnapshot : StoredSnapshot :=
  {| stored_id := "snapshot_20240101_090000_0f0f0f";
     stored_timestamp := "2024-01-01T09:00:00.000Z";
     stored_trigger := file_save;
     stored_files := [ {| path := "secret.txt"; content := "old"; size := 3 |} ];
     stored_gitCommit := None |}.

Definition lockedWorld : World :=
  {| root :=
       Dir [ ("a.txt", File "hello" true);
             ("secret.txt", File "s3cret" false) ] true;
     snapshotsDir :=
       {[ "snapshot_20240101_090000_0f0f0f.json" := Plain (TextOf secretSnapshot) ]};
     snapshotsWritable := true;
     snapshotsListable := true;
     now := 1704103200123;
     tzOffset := 0;
     tzName := "Coordinated Universal Time";
     randomText := "0.a1b2c3d4e5f6";
     journal := [] |}.

Definition sampleSnapshot : Snapshot :=
  {| id := "snapshot_20240101_100000_a1b2c3";
     timestamp := JsDate.Instant 1704103200123;
     trigger := file_save;
     files := [ captureOf ["a.txt"] "hello" ];
     gitCommit := None |}.

(** Two captures in a zone five hours west of Greenwich, at 04:30 and at
    05:30 UTC, that is at 23:30 and at 00:30 local time. *)
Definition westernWorld : World :=
  {| root := Dir [ ("a.txt", File "hello" true) ] true;
     snapshotsDir := ∅;
     snapshotsWritable := true;
     snapshotsListable := true;
     now := 1704083400000;
     tzOffset := -300;
     tzName := "Eastern Standard Time";
     randomText := "0.a1b2c3d4e5f6";
     journal := [] |}.

Definition afterTwoCaptures : World :=
  snd (createSnapshot ["a.txt"] file_save
         (later 1704087000000 "0.d4e5f6a7b8c9"
            (snd (createSnapshot ["a.txt"] file_save westernWorld)))).

(** The order of [sort()], and the order of a listing: newest first by
    identifier. *)
Definition stringLe (a b : string) : Prop := String.leb a b = true.
Definition stringGe (a b : string) : Prop := String.leb b a = true.

(** The identifier [getAllSnapshotIds] makes of a file name. *)
Definition stem (fileName : string) : string := JsString.replace ".json" "" fileName.

(** The names of the files of the snapshots directory that end in [.json]. *)
Definition jsonFiles (w : World) : list string :=
  List.filter (fun f => JsString.endsWith f ".json") (map fst (map_to_list (snapshotsDir w))).

(** What loading [snapshotId] gives in [w]. *)
Definition loaded (w : World) (snapshotId : string) : option Snapshot :=
  match snapshotsDir w !! (snapshotId ++ ".json") with
  | Some (Plain (TextOf stored)) => Some (ofStored stored)
  | _ => None
  end.

(** The snapshot [createSnapshot] makes of a file whose bytes are [text],
    under the identifier [newId]. *)
Definition captured (newId : string) (w : World) (trigger : SnapshotTrigger)
    (filePath : list string) (text : string) : Snapshot :=
  {| id := newId; timestamp := JsDate.Instant (now w); trigger := trigger;
     files := [ captureOf filePath text ]; gitCommit := None |}.

(** The identifier [generateSnapshotId] makes when the clock prints as
    [iso], and the record [createSnapshot] then writes. *)
Definition snapshotIdOf (iso : string) (w : World) : string :=
  "snapshot_" ++ JsString.removeAll "-" (JsString.slice 0 10 iso) ++ "_"
  ++ JsString.removeAll ":"
       (JsString.slice 0 8
          (JsDate.toTimeString (tzOffset w) (tzName w) (JsDate.Instant (now w))))
  ++ "_" ++ JsString.slice 2 8 (randomText w).

Definition capturedRecord (newId iso : string) (trigger : SnapshotTrigger)
    (filePath : list string) (text : string) : StoredSnapshot :=
  {| stored_id := newId; stored_timestamp := iso; stored_trigger := trigger;
     stored_files := [ captureOf filePath text ]; stored_gitCommit := None |}.

(** The captures [createBackupBeforeRestore] makes of the files found by
    the walk: those that can be read, in the order found, each with the
    decoding of its bytes. *)
Definition capturesOf (n : Node) (allFiles : list (list string)) : list FileSnapshot :=
  flat_map (fun filePath =>
              match readNode filePath n with
              | inr text => [ captureOf filePath text ]
              | inl _ => []
              end) allFiles.

(** The snapshot a backup record reads back as. *)
Definition backupSnapshot (backup : string) (w : World) (captures : list FileSnapshot)
  : Snapshot :=
  {| id := backup; timestamp := JsDate.Instant (now w); trigger := manual;
     files := captures; gitCommit := None |}.

(** A directory tree as a file system has it: in a directory no name is
    used twice and no name contains the separator. *)
Definition slashFree (name : string) : bool := negb (JsString.includes name "/").

Fixpoint wellFormed (n : Node) : bool :=
  match n with
  | Dir entries _ =>
      (fix entriesWellFormed (es : list (string * Node)) : bool :=
         match es with
         | [] => true
         | (name, entry) :: es' =>
             slashFree name
             && negb (existsb (String.eqb name) (map fst es'))
             && wellFormed entry
             && entriesWellFormed es'
         end) entries
  | _ => true
  end.

Fixpoint entriesWellFormed (es : list (string * Node)) : bool :=
  match es with
  | [] => true
  | (name, entry) :: es' =>
      slashFree name
      && negb (existsb (String.eqb name) (map fst es'))
      && wellFormed entry
      && entriesWellFormed es'
  end.

(** Induction on a tree, with the property at hand for every entry of a
    directory. *)
Fixpoint Node_entries_ind (P : Node -> Prop)
    (HFile : forall c r, P (File c r))
    (HDir : forall es l, List.Forall (fun e => P (snd e)) es -> P (Dir es l))
    (HSpecial : P Special) (n : Node) : P n :=
  match n with
  | File c r => HFile c r
  | Dir es l =>
      HDir es l
        ((fix each (es : list (string * Node)) : List.Forall (fun e => P (snd e)) es :=
            match es with
            | [] => @List.Forall_nil _ _
            | (name, entry) :: es' =>
                @List.Forall_cons _ _ (name, entry) es'
                  (Node_entries_ind P HFile HDir HSpecial entry) (each es')
            end) es)
  | Special => HSpecial
  end.

(** The eight digits of a civil date and the six digits of a time of day. *)
Definition dateDigits (y m d : Z) : string :=
  JsDate.fixed 4 y (JsDate.fixed 2 m (JsDate.fixed 2 d EmptyString)).

Definition timeDigits (tod : Z) : string :=
  JsDate.fixed 2 (tod / 3600000)
    (JsDate.fixed 2 (tod / 60000 mod 60) (JsDate.fixed 2 (tod / 1000 mod 60) EmptyString)).

(** Whether the character [c] occurs in [s]. *)
Fixpoint hasChar (c : ascii) (s : string) : bool :=
  match s with
  | EmptyString => false
  | String d s' => Ascii.eqb c d || hasChar c s'
  end.

(** A name that an entry of a directory can have: not empty, not [.] or
    [..], without separator and without NUL, of at most 255 bytes. *)
Definition fileName (name : string) : bool :=
  negb (String.eqb name EmptyString)
  && negb (String.eqb name ".")
  && negb (String.eqb name "..")
  && negb (hasChar "/" name)
  && negb (hasChar "000" name)
  && (String.length name <=? 255)%nat.

(** A relative path the way [path.relative] prints the path of a file below
    the workspace: each of its segments is a file name. On such a path
    [path.join(workspacePath, p)] folds nothing, so the file it names is
    the one at the segments of [p], and two such paths that differ name two
    files. *)
Definition tidy (p : string) : bool := forallb fileName (resolvePath p).

(** A tidy path that does not lead into [.hindsight], the directory of the
    workspace that holds the snapshots directory. *)
Definition workspaceFile (p : string) : bool :=
  tidy p && negb (String.eqb (List.hd EmptyString (resolvePath p)) ".hindsight").

(** The question the panel asks before a restore. *)
Definition restoreQuestion (toLocaleString : JsDate.Date -> string) (target : Snapshot)
  : string :=
  "Restore to snapshot from " ++ toLocaleString (timestamp target) ++ "?"
  ++ nl ++ nl ++ "Files: " ++ String.concat ", " (map path (files target)) ++ nl ++ nl
  ++ "A backup will be created automatically.".

(** The characters that end text or open markup in HTML. *)
Definition markupChars : list ascii := [ "<"; ">"; "034"; "'" ]%char.

(** The events of a series that the watcher does not ignore. *)
Definition tracked (events : list (list string * FileEvent))
  : list (list string * FileEvent) :=
  List.filter (fun e => negb (shouldIgnoreFile (relativePath (fst e)))) events.

(** The trigger [createSnapshotForFile] gives to an event. *)
Definition triggerOf (eventType : FileEvent) : SnapshotTrigger :=
  match eventType with created => file_create | _ => file_save end.

(** What holds of the variables of the view whenever a handler returns. *)
Definition viewInvariant (st : TimelineView.State) : Prop :=
  TimelineView.compareNew st = None
  /\ (TimelineView.compareMode st = false -> TimelineView.compareOld st = None)
  /\ TimelineView.compareButton st
     = (if TimelineView.compareMode st then "Exit Compare Mode" else "Compare Mode").

(** Whether a message of the view comes from the selections made: a view of
    a selected snapshot, or a comparison of two selected snapshots. *)
Definition fromSelections (seen actions : list TimelineView.Action)
    (message : ViewMessage) : Prop :=
  match message with
  | ViewSnapshot snapshotId => In (TimelineView.Select snapshotId) actions
  | CompareDiff old new =>
      old <> EmptyString
      /\ In (TimelineView.Select old) (seen ++ actions)%list
      /\ In (TimelineView.Select new) actions
  | Refresh | RestoreSnapshot _ => False
  end.

(** A snapshot that cannot be restored in full: its second capture lies
    below its first, which is a file. *)
Definition brokenSnapshot : StoredSnapshot :=
  {| stored_id := "snapshot_20240101_090000_0f0f0f";
     stored_timestamp := "2024-01-01T09:00:00.000Z";
     stored_trigger := file_save;
     stored_files := [ {| path := "a.txt"; content := "old"; size := 3 |};
                       {| path := "a.txt/x"; content := "y"; size := 1 |} ];
     stored_gitCommit := None |}.

Definition brokenWorld : World :=
  setSnapshotsDir
    {[ "snapshot_20240101_090000_0f0f0f.json" := Plain (TextOf brokenSnapshot) ]}
    (EvPut "snapshot_20240101_090000_0f0f0f.json" (TextOf brokenSnapshot))
    sampleWorld.

(** The workspace an hour after the capture, with [a.txt] edited. *)
Definition editedWorld : World :=
  snd (writeFile ["a.txt"] "changed"
         (later 1704106800456 "0.d4e5f6a7b8c9" afterCapture)).

(** The same disk as [afterCapture] with a snapshots directory that cannot
    be listed. *)
Definition hiddenWorld : World :=
  {| root := root afterCapture; snapshotsDir := snapshotsDir afterCapture;
     snapshotsWritable := true; snapshotsListable := false;
     now := now afterCapture; tzOffset := 0; tzName := tzName afterCapture;
     randomText := randomText afterCapture; journal := journal afterCapture |}.

(** A workspace with a file that is not UTF-8: the bytes FF 41. *)
Definition binaryWorld : World :=
  {| root := Dir [ ("bin.dat", File (String "255" (String "A" EmptyString)) true) ] true;
     snapshotsDir := ∅;
     snapshotsWritable := true;
     snapshotsListable := true;
     now := 1704103200123;
     tzOffset := 0;
     tzName := "Coordinated Universal Time";
     randomText := "0.a1b2c3d4e5f6";
     journal := [] |}.

(** A clock of the host, for the sample runs. *)
Definition sampleClock (d : JsDate.Date) : string :=
  match d with
  | JsDate.Instant t => JsString.slice 0 8 (JsDate.toTimeString 0 "UTC" d)
  | JsDate.Invalid => "Invalid Date"
  end.

(** * Properties *)

(** ** Strings *)

Lemma split_not_nil sep s : JsString.split sep s <> [].
Proof.
  induction s as [|c s IH]; simpl; [discriminate|].
  destruct (Ascii.eqb c sep); [discriminate|].
  destruct (JsString.split sep s); [contradiction|discriminate].
Qed.

Lemma prefix_app pat s t : String.prefix pat s = true -> String.prefix pat (s ++ t) = true.
Proof.
  revert s; induction pat as [|c pat IH]; intros s H; [destruct (s ++ t); reflexivity|].
  destruct s as [|d s]; simpl in *; [discriminate|].
  destruct (ascii_dec c d); [auto|discriminate].
Qed.

Lemma includes_app_l s t pat : JsString.includes s pat = true -> JsString.includes (s ++ t) pat = true.
Proof.
  induction s as [|c s IH]; intros H.
  - simpl in H. rewrite orb_false_r in H.
    destruct pat; [|discriminate]. destruct t; reflexivity.
  - change (JsString.includes (String c s) pat)
      with (String.prefix pat (String c s) || JsString.includes s pat) in H.
    change (JsString.includes (String c s ++ t) pat)
      with (String.prefix pat (String c s ++ t) || JsString.includes (s ++ t) pat).
    apply orb_true_iff in H as [H|H].
    + rewrite (prefix_app pat (String c s) t H). reflexivity.
    + rewrite (IH H). apply orb_true_r.
Qed.

(** ** Ignore rules (C6) *)

(** C6, as stated, fails: live capture ignores [package-lock.json], the
    backup walk does not. *)
Lemma walk_and_watcher_differ :
  walkIgnores "package-lock.json" <> shouldIgnoreFile "package-lock.json".
Proof. vm_compute. discriminate. Qed.

(** C6, amended: the denylist of the backup walk is the denylist of live
    capture without [.DS_Store], [package-lock.json] and [yarn.lock]; live
    capture ignores a path exactly when the walk ignores it or the path
    contains one of these three, so whatever the walk ignores live capture
    ignores too. *)
Theorem watcher_ignores_walk_and_more (relativePath : string) :
  shouldIgnoreFile relativePath
  = walkIgnores relativePath
    || existsb (fun pattern => JsString.includes relativePath pattern) watcherOnlyPatterns.
Proof.
  unfold shouldIgnoreFile, walkIgnores, watcherIgnorePatterns, ignorePatterns,
    watcherOnlyPatterns.
  cbn [existsb].
  repeat match goal with
         | |- context [JsString.includes relativePath ?p] =>
             generalize (JsString.includes relativePath p); intros []
         end; reflexivity.
Qed.

(** ** Lines of a change segment (C9) *)

Lemma filter_nonBlank_removelast (l : list string) :
  String.eqb (List.last l EmptyString) EmptyString = true ->
  List.filter nonBlank (removelast l) = List.filter nonBlank l.
Proof.
  induction l as [|x l IH]; [reflexivity|].
  destruct l as [|y l].
  - simpl. intros H. unfold nonBlank. rewrite H. reflexivity.
  - intros H. change (removelast (x :: y :: l)) with (x :: removelast (y :: l)).
    change (List.last (x :: y :: l) EmptyString) with (List.last (y :: l) EmptyString) in H.
    cbn [List.filter]. rewrite (IH H). reflexivity.
Qed.

(** C9, as stated, fails: the blank line inside the segment [a\n\nb\n] is
    dropped together with the trailing fragment. *)
Lemma interior_blank_line_dropped :
  let part := {| value := "a" ++ nl ++ nl ++ "b" ++ nl; added := true; removed := false |} in
  linesWithoutTrailingBlank (value part) = ["a"; ""; "b"]
  /\ partLines part = ["a"; "b"]
  /\ partLines part <> linesWithoutTrailingBlank (value part).
Proof. vm_compute. repeat split. discriminate. Qed.

(** C9, amended: the lines of a change segment are the newline-split of its
    text with every blank fragment left out, the trailing one and blank
    lines inside the segment alike; [generateDiffHtml] prints exactly these
    lines, in order, in the class of the change. *)
Theorem segment_lines_drop_every_blank (diffResult : list Change) :
  Forall (fun part =>
            partLines part = List.filter nonBlank (linesWithoutTrailingBlank (value part)))
         diffResult
  /\ generateDiffHtml diffResult
     = JsString.joinAll
         (map (fun part =>
                 JsString.joinAll
                   (map (diffLineHtml (changeKind part))
                        (List.filter nonBlank (linesWithoutTrailingBlank (value part)))))
              diffResult).
Proof.
  assert (Hlines : forall part,
             partLines part
             = List.filter nonBlank (linesWithoutTrailingBlank (value part))).
  { intros part. unfold partLines, linesWithoutTrailingBlank.
    destruct (String.eqb (List.last (JsString.split "010" (value part)) EmptyString)
                EmptyString) eqn:E.
    - symmetry. apply filter_nonBlank_removelast, E.
    - reflexivity. }
  split.
  - apply List.Forall_forall. intros part _. apply Hlines.
  - unfold generateDiffHtml. f_equal. apply map_ext. intros part.
    rewrite <- Hlines. unfold changeKind.
    destruct (added part), (removed part); reflexivity.
Qed.

(** ** Unchanged files in a diff (C5) *)

Lemma joinAll_empty (parts : list string) :
  Forall (fun s => s = EmptyString) parts -> JsString.joinAll parts = EmptyString.
Proof.
  unfold JsString.joinAll.
  induction 1 as [|x l Hx Hl IH]; [reflexivity|].
  subst x. destruct l; [reflexivity|].
  change (String.concat "" ("" :: s :: l)) with ("" ++ "" ++ String.concat "" (s :: l)).
  rewrite IH. reflexivity.
Qed.

Lemma unchanged_file_html (diffLines : string -> string -> list Change)
    (oldSnapshot newSnapshot : Snapshot) (filePath : string) (oldFile newFile : FileSnapshot) :
  findFile oldSnapshot filePath = Some oldFile ->
  findFile newSnapshot filePath = Some newFile ->
  content oldFile = content newFile ->
  generateFileDiffHtml (fileDiffOf diffLines oldSnapshot newSnapshot filePath) = EmptyString.
Proof.
  intros Ho Hn Hc. unfold generateFileDiffHtml, fileDiffOf. cbn.
  rewrite Ho, Hn. cbn. rewrite Hc, String.eqb_refl. reflexivity.
Qed.

(** A file that is added, deleted or modified does get an entry. *)
Lemma changed_file_html (diff : FileDiff) :
  optionStringEqb (oldContent diff) (newContent diff) = false ->
  generateFileDiffHtml diff <> EmptyString.
Proof.
  intros H. unfold generateFileDiffHtml.
  destruct (oldContent diff), (newContent diff); try rewrite H; discriminate.
Qed.

Lemma setAdd_In (x y : string) (set : list string) :
  In x (setAdd y set) <-> x = y \/ In x set.
Proof.
  unfold setAdd. destruct (existsb (String.eqb y) set) eqn:E.
  - split; [auto|]. intros [->|H]; [|exact H].
    apply existsb_exists in E as (z & Hz & Hyz).
    apply String.eqb_eq in Hyz as ->. exact Hz.
  - rewrite in_app_iff. cbn. intuition congruence.
Qed.

Lemma addPaths_In (x : string) (captures : list FileSnapshot) :
  forall set,
    In x (fold_left (fun set f => setAdd (path f) set) captures set)
    <-> In x set \/ In x (map path captures).
Proof.
  induction captures as [|f rest IH]; intros set; cbn [fold_left map].
  - cbn. intuition.
  - rewrite IH, setAdd_In. cbn. intuition congruence.
Qed.

(** [allFilePaths] is the union of the paths of the two snapshots. *)
Lemma allFilePaths_In (x : string) (oldSnapshot newSnapshot : Snapshot) :
  In x (allFilePaths oldSnapshot newSnapshot)
  <-> In x (map path (files oldSnapshot)) \/ In x (map path (files newSnapshot)).
Proof.
  unfold allFilePaths. rewrite !addPaths_In. cbn. intuition.
Qed.

(** C5: a path present in both snapshots with the same content has no entry
    in the rendered diff (its fragment is the empty string), and when every
    path of either snapshot is such a path the rendered diff is empty. *)
Theorem unchanged_files_omitted (diffLines : string -> string -> list Change)
    (oldSnapshot newSnapshot : Snapshot) :
  (forall filePath oldFile newFile,
      findFile oldSnapshot filePath = Some oldFile ->
      findFile newSnapshot filePath = Some newFile ->
      content oldFile = content newFile ->
      generateFileDiffHtml (fileDiffOf diffLines oldSnapshot newSnapshot filePath)
      = EmptyString)
  /\ ((forall filePath,
          In filePath (map path (files oldSnapshot))
          \/ In filePath (map path (files newSnapshot)) ->
          exists oldFile newFile,
            findFile oldSnapshot filePath = Some oldFile
            /\ findFile newSnapshot filePath = Some newFile
            /\ content oldFile = content newFile) ->
      fileDiffsHtml diffLines oldSnapshot newSnapshot = EmptyString).
Proof.
  split.
  - intros filePath oldFile newFile. apply unchanged_file_html.
  - intros Hall. unfold fileDiffsHtml, diffs.
    apply joinAll_empty. rewrite map_map. apply List.Forall_forall.
    intros html Hin. apply in_map_iff in Hin as (filePath & <- & Hin).
    apply allFilePaths_In in Hin.
    destruct (Hall filePath Hin) as (oldFile & newFile & Ho & Hn & Hc).
    eapply unchanged_file_html; eassumption.
Qed.

(** ** Lookup of a record (C7) and restore of a missing one (C2) *)

Lemma loadSnapshot_result (snapshotId : string) (w : World) :
  loadSnapshot snapshotId w
  = (inr match snapshotsDir w !! (snapshotId ++ ".json") with
         | Some (Plain (TextOf stored)) => Some (ofStored stored)
         | _ => None
         end, w).
Proof.
  unfold loadSnapshot, tryCatch, mbind, M_bind, readSnapshotFile, liftResult,
    deserialize, JSON_parse, mret, M_ret.
  destruct (snapshotsDir w !! (snapshotId ++ ".json")) as [[[stored|]|]|]; reflexivity.
Qed.

(** C7: [loadSnapshot] always returns, never throws, and leaves the disk as
    it is; when the record is missing, cannot be read or cannot be parsed
    the result is [null], the same in the three cases. *)
Theorem loadSnapshot_absent (snapshotId : string) (w : World) :
  (exists result, loadSnapshot snapshotId w = (inr result, w))
  /\ (recordReadable snapshotId w = false ->
      loadSnapshot snapshotId w = (inr None, w)).
Proof.
  rewrite loadSnapshot_result. split; [eauto|].
  unfold recordReadable.
  destruct (snapshotsDir w !! (snapshotId ++ ".json")) as [[[stored|]|]|];
    intros H; (discriminate || reflexivity).
Qed.

(** C2: when the identifier resolves to no snapshot, [restoreSnapshot]
    returns the failure [Snapshot not found] and the world after it is the
    world before it: no record is added to the snapshots directory, the
    journal of writes gets no entry, the workspace tree is the same. *)
Theorem restore_not_found (snapshotId : string) (w : World) :
  fst (loadSnapshot snapshotId w) = inr None ->
  restoreSnapshot snapshotId w = (inr notFound, w).
Proof.
  intros H. unfold restoreSnapshot, tryCatch, mbind, M_bind.
  rewrite loadSnapshot_result in *. cbn in H. injection H as ->. reflexivity.
Qed.

(** ** Identifiers and their order (C3, C8) *)

(** C3 at the failing input: a snapshot taken at 10:00:00 and a backup
    taken at 11:00:00. The listing puts the older snapshot first and the
    newer backup last. *)
Theorem backup_listed_as_oldest :
  fst (getAllSnapshotIds afterRestore)
  = inr [ "snapshot_20240101_100000_a1b2c3";
          "backup_snapshot_20240101_110000_d4e5f6" ]
  /\ match fst (getAllSnapshots afterRestore) with
     | inr all => map (fun s => (id s, timestamp s)) all
     | inl _ => []
     end
     = [ ("snapshot_20240101_100000_a1b2c3", JsDate.Instant 1704103200123);
         ("backup_snapshot_20240101_110000_d4e5f6", JsDate.Instant 1704106800456) ].
Proof. vm_compute. split; reflexivity. Qed.

(** The date of an identifier is the UTC date and its time the local time:
    away from Greenwich the later of two captures can get the smaller
    identifier and be listed as the older one. *)
Lemma local_time_breaks_order :
  match fst (getAllSnapshots afterTwoCaptures) with
  | inr all => map (fun s => (id s, timestamp s)) all
  | inl _ => []
  end
  = [ ("snapshot_20240101_233000_a1b2c3", JsDate.Instant 1704083400000);
      ("snapshot_20240101_003000_d4e5f6", JsDate.Instant 1704087000000) ].
Proof. vm_compute. reflexivity. Qed.

(** C8 at the failing input: [Math.random()] returns 0.5, printed [0.8] in
    base 16; the random suffix is one character long. *)
Theorem short_random_suffix :
  fst (generateSnapshotId (later 1704103200123 "0.8" sampleWorld))
  = inr "snapshot_20240101_100000_8".
Proof. vm_compute. reflexivity. Qed.

(** ** The ISO round trip of a date *)

Ltac Zify.zify_post_hook ::= Z.to_euclidean_division_equations.

Lemma civilOfDoe_inverse (doe : Z) :
  0 <= doe < 146097 ->
  let '(yoe, m, d) := JsDate.civilOfDoe doe in
  0 <= yoe <= 399 /\ 1 <= m <= 12 /\ 1 <= d <= 31
  /\ JsDate.doeOfCivil yoe m d = doe.
Proof.
  intros H. unfold JsDate.civilOfDoe, JsDate.doeOfCivil.
  set (yoe := (doe - doe / 1460 + doe / 36524 - doe / 146096) / 365).
  set (doy := doe - (365 * yoe + yoe / 4 - yoe / 100)).
  set (mp := (5 * doy + 2) / 153).
  assert (Hyoe : 0 <= yoe <= 399 /\ 0 <= doy <= 365) by (subst doy yoe; lia).
  assert (Hmp : 0 <= mp <= 11 /\ 1 <= doy - (153 * mp + 2) / 5 + 1 <= 31)
    by (subst mp; lia).
  assert (Hm : (if (if mp <? 10 then mp + 3 else mp - 9) >? 2
                then (if mp <? 10 then mp + 3 else mp - 9) - 3
                else (if mp <? 10 then mp + 3 else mp - 9) + 9) = mp).
  { destruct (Z.ltb_spec mp 10).
    - destruct (Z.gtb_spec (mp + 3) 2); lia.
    - destruct (Z.gtb_spec (mp - 9) 2); lia. }
  rewrite Hm.
  assert (Hdoy : doy = doe - (365 * yoe + yoe / 4 - yoe / 100)) by reflexivity.
  clearbody mp doy yoe.
  repeat split; try lia; destruct (Z.ltb_spec mp 10); lia.
Qed.

Lemma civilFromDays_inverse (z : Z) :
  let '(y, m, d) := JsDate.civilFromDays z in
  1 <= m <= 12 /\ 1 <= d <= 31 /\ JsDate.daysFromCivil y m d = z
  /\ (z + 719468) / 146097 * 400 <= y <= (z + 719468) / 146097 * 400 + 400.
Proof.
  unfold JsDate.civilFromDays.
  pose proof (civilOfDoe_inverse ((z + 719468) mod 146097) ltac:(lia)) as Hc.
  destruct (JsDate.civilOfDoe ((z + 719468) mod 146097)) as [[yoe m] d].
  destruct Hc as (Hyoe & Hm & Hd' & Hdoe).
  unfold JsDate.daysFromCivil.
  set (era := (z + 719468) / 146097) in *.
  assert (Hy : (if m <=? 2
                then (if m <=? 2 then yoe + era * 400 + 1 else yoe + era * 400) - 1
                else (if m <=? 2 then yoe + era * 400 + 1 else yoe + era * 400))
               = yoe + era * 400) by (destruct (m <=? 2); lia).
  rewrite Hy.
  assert (Hq : (yoe + era * 400) / 400 = era) by lia.
  assert (Hr : (yoe + era * 400) mod 400 = yoe) by lia.
  rewrite Hq, Hr.
  rewrite Hdoe.
  repeat split; try lia; destruct (m <=? 2); lia.
Qed.

(** Goes through the ten digits. *)
Ltac each_digit n :=
  let k := fresh "k" in
  let Hk := fresh "Hk" in
  rewrite <- (Z2Nat.id n) by lia;
  assert (Hk : (Z.to_nat n < 10)%nat) by lia;
  generalize dependent (Z.to_nat n); intros k Hk;
  do 10 (destruct k as [|k]; [try split; reflexivity|]); lia.

Lemma digitVal_digitChar (n : Z) :
  0 <= n <= 9 -> JsDate.digitVal (JsDate.digitChar n) = Some n.
Proof. intros H. each_digit n. Qed.

Lemma digitChar_not_sign (n : Z) :
  0 <= n <= 9 ->
  Ascii.eqb (JsDate.digitChar n) "+" = false
  /\ Ascii.eqb (JsDate.digitChar n) "-" = false.
Proof. intros H. each_digit n. Qed.

Lemma readDigits_fixed (w1 : nat) :
  forall (w2 : nat) (acc n : Z) (rest : string),
    0 <= n < 10 ^ Z.of_nat w1 ->
    JsDate.readDigits (w1 + w2) acc (JsDate.fixed w1 n rest)
    = JsDate.readDigits w2 (acc * 10 ^ Z.of_nat w1 + n) rest.
Proof.
  induction w1 as [|w1 IH]; intros w2 acc n rest Hn.
  - cbn in *. f_equal. lia.
  - rewrite Nat2Z.inj_succ, Z.pow_succ_r in * by lia.
    cbn [JsDate.fixed].
    replace (S w1 + w2)%nat with (w1 + S w2)%nat by lia.
    rewrite IH by lia.
    cbn [JsDate.readDigits].
    rewrite digitVal_digitChar by lia.
    f_equal. lia.
Qed.

Lemma readDigits_fixed_all (w : nat) (n : Z) (rest : string) :
  0 <= n < 10 ^ Z.of_nat w ->
  JsDate.readDigits w 0 (JsDate.fixed w n rest) = Some (n, rest).
Proof.
  intros Hn. rewrite <- (Nat.add_0_r w) at 1.
  rewrite readDigits_fixed by exact Hn. reflexivity.
Qed.

Lemma fixed_head (w : nat) (n : Z) (rest : string) :
  exists s, JsDate.fixed (S w) n rest = String (JsDate.digitChar (n / 10 ^ Z.of_nat w mod 10)) s.
Proof.
  revert n rest. induction w as [|w IH]; intros n rest.
  - cbn. rewrite Z.div_1_r. eauto.
  - change (JsDate.fixed (S (S w)) n rest)
      with (JsDate.fixed (S w) (n / 10) (String (JsDate.digitChar (n mod 10)) rest)).
    destruct (IH (n / 10) (String (JsDate.digitChar (n mod 10)) rest)) as [s Hs].
    rewrite Hs. exists s. f_equal. f_equal.
    rewrite Nat2Z.inj_succ, Z.pow_succ_r by lia.
    rewrite Z.div_div by lia. reflexivity.
Qed.

Lemma readYear_yearString (y : Z) (rest : string) :
  -999999 <= y <= 999999 ->
  JsDate.readYear (JsDate.yearString y rest) = Some (y, rest).
Proof.
  intros Hy. unfold JsDate.yearString.
  destruct (Z.leb_spec 0 y) as [H0|H0]; cbn [andb].
  - destruct (Z.leb_spec y 9999) as [H1|H1].
    + destruct (fixed_head 3 y rest) as [s Hs].
      unfold JsDate.readYear. rewrite Hs.
      destruct (digitChar_not_sign (y / 10 ^ Z.of_nat 3 mod 10) ltac:(lia)) as [-> ->].
      rewrite <- Hs. apply readDigits_fixed_all. cbn. lia.
    + destruct (Z.ltb_spec y 0); [lia|].
      cbn [JsDate.readYear Ascii.eqb Bool.eqb].
      apply readDigits_fixed_all. cbn. lia.
  - destruct (Z.ltb_spec y 0); [|lia].
    cbn [JsDate.readYear Ascii.eqb Bool.eqb].
    rewrite readDigits_fixed_all by (cbn; lia).
    destruct (Z.eqb_spec (- y) 0); [lia|]. f_equal. f_equal. lia.
Qed.

Lemma expect_head (c : ascii) (rest : string) :
  JsDate.expect c (String c rest) = Some rest.
Proof. cbn. rewrite Ascii.eqb_refl. reflexivity. Qed.

Lemma time_of_day_sum (tod : Z) :
  0 <= tod ->
  tod / 3600000 * 3600000 + tod / 60000 mod 60 * 60000
  + tod / 1000 mod 60 * 1000 + tod mod 1000 = tod.
Proof.
  intros H.
  replace (tod / 3600000) with (tod / 1000 / 60 / 60)
    by (rewrite !Z.div_div by lia; reflexivity).
  replace (tod / 60000) with (tod / 1000 / 60)
    by (rewrite !Z.div_div by lia; reflexivity).
  pose proof (Z.div_mod tod 1000 ltac:(lia)).
  pose proof (Z.div_mod (tod / 1000) 60 ltac:(lia)).
  pose proof (Z.div_mod (tod / 1000 / 60) 60 ltac:(lia)).
  generalize dependent (tod / 1000 / 60 / 60). intros h.
  generalize dependent (tod / 1000 / 60 mod 60). intros mi.
  generalize dependent (tod / 1000 / 60). intros hmi.
  generalize dependent (tod / 1000 mod 60). intros ss.
  generalize dependent (tod / 1000). intros st.
  generalize dependent (tod mod 1000). intros ms. intros.
  lia.
Qed.

(** A date printed by [toISOString] and read back by [new Date(text)] is the
    same instant. *)
Lemma ofString_toISOString (d : JsDate.Date) (iso : string) :
  JsDate.toISOString d = inr iso -> JsDate.ofString iso = d.
Proof.
  destruct d as [t|]; [|discriminate].
  unfold JsDate.toISOString.
  destruct (JsDate.inRange t) eqn:Hrange; [|discriminate].
  pose proof (civilFromDays_inverse (t / JsDate.msPerDay)) as Hcivil.
  destruct (JsDate.civilFromDays (t / JsDate.msPerDay)) as [[y m] dd].
  destruct Hcivil as (Hm & Hdd & Hdays & Hy).
  intros Heq.
  match type of Heq with
  | inr ?s = inr _ => assert (Hiso : iso = s) by congruence
  end.
  subst iso. clear Heq.
  assert (Ht : - JsDate.maxTime <= t <= JsDate.maxTime).
  { unfold JsDate.inRange in Hrange. apply andb_true_iff in Hrange as [H1 H2].
    apply Z.leb_le in H1, H2. lia. }
  unfold JsDate.maxTime, JsDate.msPerDay in *.
  set (tod := t mod 86400000) in *.
  assert (Htod : 0 <= tod < 86400000) by (subst tod; lia).
  unfold JsDate.ofString, JsDate.parseISO, JsDate.clockString.
  rewrite readYear_yearString by lia. cbn [mbind option_bind].
  rewrite expect_head. cbn [mbind option_bind].
  rewrite readDigits_fixed_all by (cbn; lia). cbn [mbind option_bind].
  rewrite expect_head. cbn [mbind option_bind].
  rewrite readDigits_fixed_all by (cbn; lia). cbn [mbind option_bind].
  rewrite expect_head. cbn [mbind option_bind].
  rewrite readDigits_fixed_all by (cbn; lia). cbn [mbind option_bind].
  rewrite expect_head. cbn [mbind option_bind].
  rewrite readDigits_fixed_all by (cbn; lia). cbn [mbind option_bind].
  rewrite expect_head. cbn [mbind option_bind].
  rewrite readDigits_fixed_all by (cbn; lia). cbn [mbind option_bind].
  rewrite expect_head. cbn [mbind option_bind].
  rewrite readDigits_fixed_all by (cbn; lia). cbn [mbind option_bind].
  rewrite expect_head. cbn [mbind option_bind String.eqb negb].
  assert (Hchecks :
            (1 <=? m) && (m <=? 12) && (1 <=? dd) && (dd <=? 31)
            && (tod / 3600000 <=? 23) && (tod / 60000 mod 60 <=? 59)
            && (tod / 1000 mod 60 <=? 59) = true).
  { repeat (apply andb_true_intro; split); apply Z.leb_le; lia. }
  rewrite Hchecks. cbn [negb].
  rewrite Hdays. unfold JsDate.msPerDay.
  assert (Hsum : t / 86400000 * 86400000 + tod / 3600000 * 3600000
                 + tod / 60000 mod 60 * 60000 + tod / 1000 mod 60 * 1000
                 + tod mod 1000 = t).
  { pose proof (time_of_day_sum tod ltac:(lia)). subst tod. lia. }
  rewrite Hsum, Hrange. reflexivity.
Qed.

(** ** The workspace tree *)

Lemma fileAt_nil (n : Node) :
  fileAt [] n = match n with File c _ => Some c | _ => None end.
Proof. reflexivity. Qed.

Lemma fileAt_cons (s : string) (more : list string) (n : Node) :
  fileAt (s :: more) n
  = match n with
    | Dir es _ =>
        match entryLookup s es with
        | Some child => fileAt more child
        | None => None
        end
    | _ => None
    end.
Proof.
  unfold fileAt. cbn [lookupNode].
  destruct n as [c r|es l|]; try reflexivity.
  destruct (entryLookup s es); reflexivity.
Qed.

Lemma fileAt_below_file (s : string) (more : list string) (c : string) (r : bool) :
  fileAt (s :: more) (File c r) = None.
Proof. reflexivity. Qed.

Lemma entryLookup_update (name name' : string) (x : Node) (es : list (string * Node)) :
  entryLookup name' (entryUpdate name x es)
  = if String.eqb name' name
    then match entryLookup name es with Some _ => Some x | None => None end
    else entryLookup name' es.
Proof.
  induction es as [|[n y] es IH]; cbn [entryUpdate entryLookup].
  - destruct (String.eqb name' name); reflexivity.
  - destruct (String.eqb_spec name n) as [->|Hn]; cbn [entryLookup].
    + destruct (String.eqb name' n); reflexivity.
    + rewrite IH. destruct (String.eqb_spec name' n) as [->|Hn'].
      * destruct (String.eqb_spec n name); [congruence|reflexivity].
      * reflexivity.
Qed.

Lemma entryLookup_snoc (name name' : string) (x : Node) (es : list (string * Node)) :
  entryLookup name es = None ->
  entryLookup name' (es ++ [(name, x)])
  = if String.eqb name' name then Some x else entryLookup name' es.
Proof.
  induction es as [|[n y] es IH]; cbn [entryLookup app]; intros H.
  - destruct (String.eqb name' name); reflexivity.
  - destruct (String.eqb_spec name n) as [->|Hn]; [discriminate|].
    rewrite (IH H). destruct (String.eqb_spec name' n) as [->|Hn'].
    + destruct (String.eqb_spec n name); [congruence|reflexivity].
    + reflexivity.
Qed.

(** [writeFile] changes the text of no other file. *)
Lemma writeNode_frame (target : list string) :
  forall (c : string) (n n' : Node),
    writeNode target c n = inr n' ->
    forall segs, segs <> target -> fileAt segs n' = fileAt segs n.
Proof.
  induction target as [|d rest IH]; intros c n n' Hw segs Hne.
  - destruct n; discriminate.
  - destruct n as [t r|es l|]; try discriminate.
    cbn [writeNode] in Hw.
    destruct segs as [|s more]; [destruct rest as [|r rest'];
      [destruct (entryLookup d es) as [[]|]
      |destruct (entryLookup d es); [destruct (writeNode (r :: rest') c n)|]];
      try discriminate; injection Hw as <-; reflexivity|].
    rewrite !fileAt_cons.
    destruct rest as [|r rest'].
    + destruct (entryLookup d es) as [[t r0| |]|] eqn:Hd; try discriminate;
        injection Hw as <-.
      * rewrite entryLookup_update, Hd.
        destruct (String.eqb_spec s d) as [->|Hs]; [|reflexivity].
        rewrite Hd. destruct more; [congruence|reflexivity].
      * rewrite entryLookup_snoc by exact Hd.
        destruct (String.eqb_spec s d) as [->|Hs]; [|reflexivity].
        rewrite Hd. destruct more; [congruence|reflexivity].
    + destruct (entryLookup d es) as [child|] eqn:Hd; [|discriminate].
      destruct (writeNode (r :: rest') c child) as [e|child'] eqn:Hc; [discriminate|].
      injection Hw as <-.
      rewrite entryLookup_update, Hd.
      destruct (String.eqb_spec s d) as [->|Hs]; [|reflexivity].
      rewrite Hd. apply (IH c child child' Hc). congruence.
Qed.

Lemma fileAt_empty_dir (segs : list string) (l : bool) : fileAt segs (Dir [] l) = None.
Proof. destruct segs; reflexivity. Qed.

(** [mkdirSync] changes the text of no file. *)
Lemma mkdirp_frame (dir : list string) :
  forall (n n' : Node),
    mkdirp dir n = inr n' -> forall segs, fileAt segs n' = fileAt segs n.
Proof.
  induction dir as [|d rest IH]; intros n n' Hm segs.
  - destruct n; try discriminate. injection Hm as <-. reflexivity.
  - destruct n as [t r|es l|]; try discriminate.
    cbn [mkdirp] in Hm.
    destruct (entryLookup d es) as [child|] eqn:Hd.
    + destruct (mkdirp rest child) as [e|child'] eqn:Hc; [discriminate|].
      injection Hm as <-.
      destruct segs as [|s more]; [reflexivity|].
      rewrite !fileAt_cons, entryLookup_update, Hd.
      destruct (String.eqb_spec s d) as [->|Hs]; [|reflexivity].
      rewrite Hd. apply (IH child child' Hc).
    + destruct (mkdirp rest (Dir [] true)) as [e|child'] eqn:Hc; [discriminate|].
      injection Hm as <-.
      destruct segs as [|s more]; [reflexivity|].
      rewrite !fileAt_cons, entryLookup_snoc by exact Hd.
      destruct (String.eqb_spec s d) as [->|Hs]; [|reflexivity].
      rewrite Hd, (IH _ _ Hc). apply fileAt_empty_dir.
Qed.

Lemma append_assoc (a b c : string) : (a ++ b) ++ c = a ++ (b ++ c).
Proof.
  induction a as [|x a IH]; [reflexivity|].
  change (String x ((a ++ b) ++ c) = String x (a ++ (b ++ c))).
  rewrite IH. reflexivity.
Qed.

Lemma append_empty_r (a : string) : a ++ EmptyString = a.
Proof.
  induction a as [|x a IH]; [reflexivity|].
  change (String x (a ++ EmptyString) = String x a).
  rewrite IH. reflexivity.
Qed.

(** A normalised relative path read and printed again is itself. *)
Lemma relativePath_resolvePath (p : string) : relativePath (resolvePath p) = p.
Proof.
  unfold relativePath, resolvePath.
  induction p as [|c p IH]; [reflexivity|].
  cbn [JsString.split].
  pose proof (split_not_nil "/" p) as Hnil.
  destruct (Ascii.eqb_spec c "/") as [->|Hc].
  - destruct (JsString.split "/" p) as [|h t]; [contradiction|].
    change (String.concat "/" ("" :: h :: t))
      with ("" ++ "/" ++ String.concat "/" (h :: t)).
    rewrite IH. reflexivity.
  - destruct (JsString.split "/" p) as [|h t]; [contradiction|].
    destruct t as [|h' t].
    + cbn in *. rewrite IH. reflexivity.
    + change (String.concat "/" (String c h :: h' :: t))
        with (String c (h ++ "/" ++ String.concat "/" (h' :: t))).
      change (String.concat "/" (h :: h' :: t))
        with (h ++ "/" ++ String.concat "/" (h' :: t)) in IH.
      rewrite IH. reflexivity.
Qed.

(** The relative path of a directory is the beginning of the relative
    paths below it. *)
Lemma relativePath_app (a b : list string) :
  a <> [] -> exists t, relativePath (a ++ b) = relativePath a ++ t.
Proof.
  unfold relativePath. induction a as [|x a IH]; [congruence|]. intros _.
  destruct a as [|x' a].
  - destruct b as [|y b].
    + exists EmptyString. cbn. rewrite append_empty_r. reflexivity.
    + exists ("/" ++ String.concat "/" (y :: b)). reflexivity.
  - destruct (IH ltac:(discriminate)) as [t Ht]. exists t.
    change (String.concat "/" ((x :: x' :: a) ++ b))
      with (x ++ "/" ++ String.concat "/" ((x' :: a) ++ b)).
    rewrite Ht.
    change (String.concat "/" (x :: x' :: a))
      with (x ++ "/" ++ String.concat "/" (x' :: a)).
    rewrite !append_assoc. reflexivity.
Qed.

Lemma walkIgnores_below (a b : list string) :
  a <> [] ->
  walkIgnores (relativePath (a ++ b)) = false ->
  walkIgnores (relativePath a) = false.
Proof.
  intros Ha Hb. destruct (relativePath_app a b Ha) as [t Ht]. rewrite Ht in Hb.
  destruct (walkIgnores (relativePath a)) eqn:E; [|reflexivity].
  rewrite <- Hb. symmetry.
  unfold walkIgnores in *. apply existsb_exists in E as (pat & Hin & Hinc).
  apply existsb_exists. exists pat. split; [exact Hin|].
  apply includes_app_l, Hinc.
Qed.

(** ** The backup walk *)

Lemma walkDir_entries (dir : list string) (es : list (string * Node)) :
  walkDir dir (Dir es true) = walkEntries dir es.
Proof.
  induction es as [|[name entry] es IH]; [reflexivity|].
  cbn [walkEntries]. rewrite <- IH. reflexivity.
Qed.

Lemma walkEntries_found (dir : list string) (es : list (string * Node)) :
  forall found s child,
    walkEntries dir es = inr found ->
    entryLookup s es = Some child ->
    walkIgnores (relativePath (dir ++ [s])) = false ->
    match child with
    | File _ _ => In (dir ++ [s])%list found
    | Dir _ _ => exists sub, walkDir (dir ++ [s]) child = inr sub /\ incl sub found
    | Special => True
    end.
Proof.
  induction es as [|[name entry] es IH]; intros found s child Hw Hl Hi; [discriminate|].
  cbn [walkEntries entryLookup] in Hw, Hl.
  destruct (String.eqb_spec s name) as [->|Hs].
  - injection Hl as ->. rewrite Hi in Hw.
    destruct child as [c r|sub l|]; [| |exact I].
    + destruct (walkEntries dir es) as [e|more]; [discriminate|].
      injection Hw as <-. left. reflexivity.
    + destruct (walkDir (dir ++ [name]) (Dir sub l)) as [e|here]; [discriminate|].
      destruct (walkEntries dir es) as [e|more]; [discriminate|].
      injection Hw as <-. exists here. split; [reflexivity|].
      apply incl_appl, incl_refl.
  - assert (Hrest : forall more, walkEntries dir es = inr more ->
              match child with
              | File _ _ => In (dir ++ [s])%list more
              | Dir _ _ => exists sub, walkDir (dir ++ [s]) child = inr sub /\ incl sub more
              | Special => True
              end) by (intros more Hmore; exact (IH more s child Hmore Hl Hi)).
    assert (Hgrow : forall more found',
              incl more found' ->
              match child with
              | File _ _ => In (dir ++ [s])%list more
              | Dir _ _ => exists sub, walkDir (dir ++ [s]) child = inr sub /\ incl sub more
              | Special => True
              end ->
              match child with
              | File _ _ => In (dir ++ [s])%list found'
              | Dir _ _ => exists sub, walkDir (dir ++ [s]) child = inr sub /\ incl sub found'
              | Special => True
              end).
    { intros more found' Hincl. destruct child; [auto| |auto].
      intros (sub & Hsub & Hin). exists sub. split; [exact Hsub|].
      eapply incl_tran; eassumption. }
    destruct (walkIgnores (relativePath (dir ++ [name]))); [apply Hrest, Hw|].
    destruct entry as [c r|sub l|]; [| |apply Hrest, Hw].
    + destruct (walkEntries dir es) as [e|more]; [discriminate|].
      injection Hw as <-. apply (Hgrow more); [apply incl_tl, incl_refl|].
      apply Hrest. reflexivity.
    + destruct (walkDir (dir ++ [name]) (Dir sub l)) as [e|here]; [discriminate|].
      destruct (walkEntries dir es) as [e|more]; [discriminate|].
      injection Hw as <-. apply (Hgrow more); [apply incl_appr, incl_refl|].
      apply Hrest. reflexivity.
Qed.

(** The walk finds every regular file whose relative path contains no
    ignore pattern. *)
Lemma walkDir_complete (segs : list string) :
  forall (n : Node) (dir : list string) (found : list (list string))
         (c : string) (r : bool),
    segs <> [] ->
    walkDir dir n = inr found ->
    lookupNode segs n = Some (File c r) ->
    walkIgnores (relativePath (dir ++ segs)) = false ->
    In (dir ++ segs)%list found.
Proof.
  induction segs as [|s rest IH]; intros n dir found c r Hne Hw Hl Hi; [congruence|].
  destruct n as [t r0|es l|]; try discriminate.
  destruct l; [|discriminate].
  rewrite walkDir_entries in Hw.
  cbn [lookupNode] in Hl.
  destruct (entryLookup s es) as [child|] eqn:Hs; [|discriminate].
  assert (Hhere : walkIgnores (relativePath (dir ++ [s])) = false).
  { apply (walkIgnores_below (dir ++ [s]) rest); [destruct dir; discriminate|].
    rewrite <- app_assoc. exact Hi. }
  pose proof (walkEntries_found dir es found s child Hw Hs Hhere) as Hfound.
  destruct rest as [|s' rest'].
  - cbn in Hl. injection Hl as ->. exact Hfound.
  - destruct child as [t r0|sub l|]; try discriminate.
    destruct Hfound as (here & Hsub & Hincl).
    apply Hincl.
    change (dir ++ s :: s' :: rest')%list with (dir ++ [s] ++ s' :: rest')%list.
    rewrite app_assoc.
    apply (IH (Dir sub l) (dir ++ [s])%list here c r); [discriminate|exact Hsub|exact Hl|].
    rewrite <- app_assoc. exact Hi.
Qed.

(** ** Effects of the operations *)

Lemma generateSnapshotId_world (w : World) : snd (generateSnapshotId w) = w.
Proof.
  unfold generateSnapshotId, mbind, M_bind, newDate, liftResult, toTimeString,
    mathRandomToString16, mret, M_ret.
  destruct (JsDate.toISOString (JsDate.Instant (now w))); reflexivity.
Qed.

Lemma backupFile_result (filePath : list string) (w : World) :
  exists captured,
    backupFile filePath w = (inr captured, w)
    /\ forall text,
         lookupNode filePath (root w) = Some (File text true) ->
         captured = [ {| path := relativePath filePath;
                         content := JsString.utf8Decode text;
                         size := Z.of_nat (String.length text) |} ].
Proof.
  unfold backupFile, tryCatch, mbind, M_bind, readFile, stat, readNode, statSize,
    mret, M_ret.
  destruct (lookupNode filePath (root w)) as [[text [|]| |]|];
    eexists; (split; [reflexivity|]); intros text' H; try discriminate.
  injection H as <-. reflexivity.
Qed.

Lemma backupFiles_result (allFiles : list (list string)) (w : World) :
  exists captured,
    backupFiles allFiles w = (inr captured, w)
    /\ forall filePath text,
         In filePath allFiles ->
         lookupNode filePath (root w) = Some (File text true) ->
         In {| path := relativePath filePath;
               content := JsString.utf8Decode text;
               size := Z.of_nat (String.length text) |} captured.
Proof.
  induction allFiles as [|f rest (more & Hmore & Hall)].
  - exists []. split; [reflexivity|]. intros ? ? [].
  - destruct (backupFile_result f w) as (one & Hone & Hf).
    exists (one ++ more)%list. split.
    + cbn [backupFiles]. unfold mbind, M_bind. rewrite Hone, Hmore. reflexivity.
    + intros filePath text [->|Hin] Hl; apply in_or_app.
      * left. rewrite (Hf text Hl). left. reflexivity.
      * right. apply (Hall filePath text Hin Hl).
Qed.

Lemma createBackup_outcome (w : World) :
  match createBackupBeforeRestore w with
  | (inl _, wb) => wb = w
  | (inr backupId, wb) =>
      exists inner iso allFiles captured,
        backupId = "backup_" ++ inner
        /\ walkDir [] (root w) = inr allFiles
        /\ backupFiles allFiles w = (inr captured, w)
        /\ wb = setSnapshotsDir
                  (<[backupId ++ ".json" := Plain (TextOf (backupRecord inner iso captured))]>
                     (snapshotsDir w))
                  (EvPut (backupId ++ ".json") (TextOf (backupRecord inner iso captured))) w
  end.
Proof.
  unfold createBackupBeforeRestore, mbind, M_bind.
  pose proof (generateSnapshotId_world w) as Hgen.
  destruct (generateSnapshotId w) as [[e|inner] w1]; cbn in Hgen; subst w1; [reflexivity|].
  unfold getAllWorkspaceFiles.
  destruct (walkDir [] (root w)) as [e|allFiles] eqn:Hwalk; [reflexivity|].
  destruct (backupFiles_result allFiles w) as (captured & Hcap & _). rewrite Hcap.
  unfold newDate, saveSnapshot, serialize, toStored, liftResult, writeSnapshotFile,
    mbind, M_bind, mret, M_ret. cbn [timestamp id].
  destruct (JsDate.toISOString (JsDate.Instant (now w))) as [e|iso]; [reflexivity|].
  destruct (snapshotsWritable w); [|reflexivity].
  exists inner, iso, allFiles, captured. repeat split; assumption.
Qed.

Lemma workspaceOnly_refl (touched : list (list string)) (w : World) :
  workspaceOnly touched w w.
Proof.
  repeat split. exists []. split; [symmetry; apply app_nil_r|reflexivity].
Qed.

Lemma workspaceOnly_trans (t1 t2 : list (list string)) (w1 w2 w3 : World) :
  workspaceOnly t1 w1 w2 -> workspaceOnly t2 w2 w3 ->
  workspaceOnly (t1 ++ t2) w1 w3.
Proof.
  intros (Hs1 & (ev1 & Hj1 & He1) & Hf1) (Hs2 & (ev2 & Hj2 & He2) & Hf2).
  split; [congruence|]. split.
  - exists (ev1 ++ ev2)%list. split.
    + rewrite Hj2, Hj1, app_assoc. reflexivity.
    + rewrite forallb_app, He1, He2. reflexivity.
  - intros segs Hn. rewrite Hf2, Hf1; [reflexivity| |];
      intros Hin; apply Hn, in_or_app; auto.
Qed.

Lemma setRoot_mkdir (dir : list string) (r : Node) (w : World) :
  mkdirp dir (root w) = inr r ->
  workspaceOnly [] w (setRoot r (EvMkdir dir) w).
Proof.
  intros Hm. repeat split.
  - exists [EvMkdir dir]. split; reflexivity.
  - intros segs _. apply (mkdirp_frame dir _ _ Hm).
Qed.

Lemma setRoot_write (file : list string) (c : string) (r : Node) (w : World) :
  writeNode file c (root w) = inr r ->
  workspaceOnly [file] w (setRoot r (EvWrite file c) w).
Proof.
  intros Hw. repeat split.
  - exists [EvWrite file c]. split; reflexivity.
  - intros segs Hn. apply (writeNode_frame file c _ _ Hw).
    intros ->. apply Hn. left. reflexivity.
Qed.

Lemma writeFile_effect (file : list string) (c : string) (w : World) :
  workspaceOnly [file] w (snd (writeFile file c w)).
Proof.
  unfold writeFile.
  destruct (writeNode file c (root w)) as [e|r] eqn:Hw.
  - apply workspaceOnly_refl.
  - apply setRoot_write, Hw.
Qed.

Lemma restoreFile_effect (file : FileSnapshot) (w : World) :
  workspaceOnly [resolvePath (path file)] w (snd (restoreFile file w)).
Proof.
  unfold restoreFile, mbind, M_bind, existsSync, mkdirSync, mret, M_ret.
  destruct (lookupNode (dirname (resolvePath (path file))) (root w)).
  - apply writeFile_effect.
  - destruct (mkdirp (dirname (resolvePath (path file))) (root w)) as [e|r] eqn:Hm.
    + apply workspaceOnly_refl.
    + eapply (workspaceOnly_trans [] [resolvePath (path file)]).
      * apply setRoot_mkdir, Hm.
      * apply writeFile_effect.
Qed.

Lemma forEach_restoreFile_effect (captures : list FileSnapshot) (w : World) :
  workspaceOnly (map (fun f => resolvePath (path f)) captures) w
    (snd (forEach captures restoreFile w)).
Proof.
  revert w. induction captures as [|f rest IH]; intros w.
  - apply workspaceOnly_refl.
  - cbn [forEach map]. unfold mbind, M_bind.
    pose proof (restoreFile_effect f w) as Hf.
    destruct (restoreFile f w) as [[e|[]] w1]; cbn [snd] in Hf.
    + eapply (workspaceOnly_trans [_] _ w w1 w1); [exact Hf|apply workspaceOnly_refl].
    + apply (workspaceOnly_trans [_] _ w w1 _ Hf). apply IH.
Qed.

(** ** The restore protocol (C1, C10) *)

Lemma restoreSnapshot_found (snapshotId : string) (target : Snapshot) (w : World) :
  fst (loadSnapshot snapshotId w) = inr (Some target) ->
  restoreSnapshot snapshotId w
  = match createBackupBeforeRestore w with
    | (inl e, wb) => (inr (failed e), wb)
    | (inr backup, wb) =>
        match forEach (files target) restoreFile wb with
        | (inl e, w') => (inr (failed e), w')
        | (inr _, w') => (inr (restored backup), w')
        end
    end.
Proof.
  intros H. unfold restoreSnapshot, tryCatch, mbind, M_bind.
  rewrite loadSnapshot_result in *. cbn [fst] in H. injection H as ->.
  destruct (createBackupBeforeRestore w) as [[e|backup] wb]; [reflexivity|].
  destruct (forEach (files target) restoreFile wb) as [[e|[]] w']; reflexivity.
Qed.

Lemma restore_outcome_world (backup : string) (run : (Error + unit) * World) :
  snd (match run with
       | (inl e, w') => (@inr Error RestoreResult (failed e), w')
       | (inr _, w') => (inr (restored backup), w')
       end) = snd run.
Proof. destruct run as [[e|[]] w']; reflexivity. Qed.

(** C1, as stated, fails: [secret.txt] is found by the walk but cannot be
    read; the restore succeeds, its backup holds [a.txt] only, and
    [secret.txt] is overwritten. *)
Lemma unreadable_file_not_backed_up :
  let run := restoreSnapshot "snapshot_20240101_090000_0f0f0f" lockedWorld in
  fst (getAllWorkspaceFiles lockedWorld) = inr [ ["a.txt"]; ["secret.txt"] ]
  /\ fst run = inr (restored "backup_snapshot_20240101_100000_a1b2c3")
  /\ snapshotsDir (snd run) !! "backup_snapshot_20240101_100000_a1b2c3.json"
     = Some (Plain (TextOf (backupRecord "snapshot_20240101_100000_a1b2c3"
                              "2024-01-01T10:00:00.123Z"
                              [ captureOf ["a.txt"] "hello" ])))
  /\ fileAt ["secret.txt"] (root lockedWorld) = Some "s3cret"
  /\ fileAt ["secret.txt"] (root (snd run)) = Some "old".
Proof. vm_compute. repeat split. Qed.

(** C1, amended: a restore of an existing snapshot first creates the backup.
    When that fails the restore returns a failure and the world is left as
    it was. Otherwise exactly one record is put into the snapshots
    directory, before anything else happens, and it is stored when the
    first file is written: its identifier starts with [backup_], its
    trigger is [manual] and it holds a capture of every regular file of the
    workspace that the walk does not ignore and that can be read, with the
    text [readFile(path, 'utf8')] gives for the bytes of the file and their
    number as size; every later event is a write or a [mkdir] in the
    workspace. *)
Theorem backup_before_restore (snapshotId : string) (target : Snapshot) (w : World) :
  fst (loadSnapshot snapshotId w) = inr (Some target) ->
  match createBackupBeforeRestore w with
  | (inl e, _) => restoreSnapshot snapshotId w = (inr (failed e), w)
  | (inr backup, wb) =>
      exists (record : StoredSnapshot) (writes : list Event),
        String.prefix "backup_" backup = true
        /\ stored_id record = backup
        /\ stored_trigger record = manual
        /\ (forall segs text,
               lookupNode segs (root w) = Some (File text true) ->
               walkIgnores (relativePath segs) = false ->
               In (captureOf segs text) (stored_files record))
        /\ root wb = root w
        /\ journal (snd (restoreSnapshot snapshotId w))
           = (journal w ++ EvPut (backup ++ ".json") (TextOf record) :: writes)%list
        /\ forallb isWorkspaceEvent writes = true
        /\ snapshotsDir wb !! (backup ++ ".json") = Some (Plain (TextOf record))
  end.
Proof.
  intros Hload. rewrite (restoreSnapshot_found _ _ _ Hload).
  pose proof (createBackup_outcome w) as Hb.
  destruct (createBackupBeforeRestore w) as [[e|backup] wb]; [subst wb; reflexivity|].
  destruct Hb as (inner & iso & allFiles & captured & -> & Hwalk & Hcap & ->).
  exists (backupRecord inner iso captured).
  match goal with
  | |- context [forEach ?l ?f ?w0] =>
      pose proof (forEach_restoreFile_effect l w0) as (Hdir & (writes & Hj & Hev) & _)
  end.
  exists writes.
  rewrite restore_outcome_world.
  split; [destruct inner; reflexivity|].
  split; [reflexivity|]. split; [reflexivity|]. split; [|split; [reflexivity|]].
  - intros segs text Hl Hi.
    destruct (backupFiles_result allFiles w) as (captured' & Hcap' & Hall).
    rewrite Hcap in Hcap'. injection Hcap' as <-.
    apply Hall; [|exact Hl].
    destruct segs as [|s rest].
    + cbn in Hl. injection Hl as Hroot. rewrite Hroot in Hwalk. discriminate.
    + apply (walkDir_complete (s :: rest) (root w) [] allFiles text true);
        [discriminate|exact Hwalk|exact Hl|exact Hi].
  - split; [|split; [exact Hev|]].
    + rewrite Hj. cbn [journal setSnapshotsDir]. rewrite <- app_assoc. reflexivity.
    + cbn [snapshotsDir setSnapshotsDir]. apply lookup_insert_eq.
Qed.


(** ** The persisted form of a snapshot (C4) *)

(** C4: a snapshot whose timestamp is a date in range is saved when the
    snapshots directory can be written and the identifier makes a file
    name. The record written reads back as the same snapshot, field for
    field, the timestamp being the same instant, and it is what loading
    the identifier returns afterwards. *)
Theorem snapshot_round_trip (snapshot : Snapshot) (t : Z) (w : World) :
  timestamp snapshot = JsDate.Instant t ->
  JsDate.inRange t = true ->
  snapshotsWritable w = true ->
  fileName (id snapshot ++ ".json") = true ->
  exists text w',
    serialize snapshot = inr text
    /\ deserialize text = inr snapshot
    /\ saveSnapshot snapshot w = (inr tt, w')
    /\ loadSnapshot (id snapshot) w' = (inr (Some snapshot), w')
    /\ root w' = root w.
Proof.
  intros Ht Hrange Hwritable _.
  assert (Hiso : exists iso, JsDate.toISOString (timestamp snapshot) = inr iso).
  { unfold JsDate.toISOString. rewrite Ht, Hrange.
    destruct (JsDate.civilFromDays (t / JsDate.msPerDay)) as [[y m] d]. eauto. }
  destruct Hiso as (iso & Hiso).
  assert (Hback : ofStored {| stored_id := id snapshot; stored_timestamp := iso;
                              stored_trigger := trigger snapshot;
                              stored_files := files snapshot;
                              stored_gitCommit := gitCommit snapshot |} = snapshot).
  { unfold ofStored. cbn. rewrite (ofString_toISOString _ _ Hiso).
    destruct snapshot; reflexivity. }
  eexists _, _. split; [|split; [|split; [|split]]].
  - unfold serialize, toStored. rewrite Hiso. reflexivity.
  - unfold deserialize, JSON_parse, JSON_stringify. rewrite Hback. reflexivity.
  - unfold saveSnapshot, mbind, M_bind, liftResult, writeSnapshotFile, serialize, toStored.
    rewrite Hiso, Hwritable. reflexivity.
  - rewrite loadSnapshot_result.
    cbn [snapshotsDir setSnapshotsDir]. rewrite lookup_insert_eq.
    unfold JSON_stringify. rewrite Hback. reflexivity.
  - reflexivity.
Qed.

(** A snapshot whose timestamp is a date in range can be serialized. *)
Lemma serialize_valid (snapshot : Snapshot) (t : Z) :
  timestamp snapshot = JsDate.Instant t ->
  JsDate.inRange t = true ->
  exists text, serialize snapshot = inr text.
Proof.
  intros Ht Hr. unfold serialize, toStored, JsDate.toISOString. rewrite Ht, Hr.
  destruct (JsDate.civilFromDays (t / JsDate.msPerDay)) as [[y m] d]. eauto.
Qed.

(** * Further properties of the snapshot store *)

(** ** Listing *)

Lemma insertSorted_perm (x : string) (l : list string) :
  Permutation (x :: l) (insertSorted x l).
Proof.
  induction l as [|y l IH]; cbn [insertSorted]; [reflexivity|].
  destruct (String.leb x y); [reflexivity|].
  rewrite perm_swap. apply perm_skip, IH.
Qed.

Lemma sortStrings_perm (l : list string) : Permutation l (sortStrings l).
Proof.
  unfold sortStrings. induction l as [|x l IH]; [reflexivity|].
  cbn [fold_right]. rewrite <- insertSorted_perm. apply perm_skip, IH.
Qed.

Lemma insertSorted_HdRel (a x : string) (l : list string) :
  stringLe a x -> HdRel stringLe a l -> HdRel stringLe a (insertSorted x l).
Proof.
  intros Hax Hl. destruct l as [|y l]; cbn [insertSorted]; [constructor; exact Hax|].
  destruct (String.leb x y); constructor; [exact Hax|].
  inversion Hl; assumption.
Qed.

Lemma insertSorted_Sorted (x : string) (l : list string) :
  Sorted stringLe l -> Sorted stringLe (insertSorted x l).
Proof.
  induction 1 as [|y l Hs IH Hhd]; cbn [insertSorted]; [repeat constructor|].
  destruct (String.leb x y) eqn:E.
  - constructor; [constructor; assumption|constructor; exact E].
  - constructor; [exact IH|].
    apply insertSorted_HdRel; [|exact Hhd].
    destruct (String.leb_total x y) as [H|H]; [congruence|exact H].
Qed.

Lemma sortStrings_Sorted (l : list string) : Sorted stringLe (sortStrings l).
Proof.
  unfold sortStrings. induction l as [|x l IH]; [constructor|].
  cbn [fold_right]. apply insertSorted_Sorted, IH.
Qed.

Lemma Sorted_snoc (l : list string) (x : string) :
  Sorted stringGe l ->
  (forall y, List.last l x = y -> l <> [] -> stringGe y x) ->
  Sorted stringGe (l ++ [x]).
Proof.
  induction 1 as [|y l Hs IH Hhd]; intros Hlast; [repeat constructor|].
  cbn [app]. constructor.
  - apply IH. intros z Hz Hne. apply (Hlast z); [|discriminate].
    destruct l; [congruence|exact Hz].
  - destruct l as [|z l]; cbn [app].
    + constructor. apply (Hlast y); [reflexivity|discriminate].
    + constructor. inversion Hhd; assumption.
Qed.

Lemma Sorted_rev (l : list string) : Sorted stringLe l -> Sorted stringGe (rev l).
Proof.
  induction 1 as [|x l Hs IH Hhd]; [constructor|].
  cbn [rev]. apply Sorted_snoc; [exact IH|].
  intros y Hy Hne. unfold stringGe.
  destruct l as [|z l]; [contradiction|].
  assert (List.last (rev (z :: l)) x = z) as Hz.
  { cbn [rev]. rewrite last_last. reflexivity. }
  rewrite Hz in Hy. subst y.
  inversion Hhd as [|? ? Hxz]. exact Hxz.
Qed.

Lemma getAllSnapshotIds_result (w : World) :
  getAllSnapshotIds w
  = (inr (if snapshotsListable w then rev (sortStrings (map stem (jsonFiles w))) else []),
     w).
Proof.
  unfold getAllSnapshotIds, tryCatch, mbind, M_bind, readdirSnapshots, mret, M_ret.
  destruct (snapshotsListable w); reflexivity.
Qed.

(** X1: [getAllSnapshotIds] never throws and leaves the disk as it is; what
    it returns is in descending order of identifiers, and when the
    directory can be listed it is, up to order, the stems of the files that
    end in [.json], one for each file. *)
Theorem getAllSnapshotIds_sorted (w : World) :
  exists ids,
    getAllSnapshotIds w = (inr ids, w)
    /\ Sorted stringGe ids
    /\ (snapshotsListable w = true -> Permutation ids (map stem (jsonFiles w))).
Proof.
  rewrite getAllSnapshotIds_result. eexists. split; [reflexivity|].
  destruct (snapshotsListable w).
  - split.
    + apply Sorted_rev, sortStrings_Sorted.
    + intros _. rewrite <- Permutation_rev. symmetry. apply sortStrings_perm.
  - split; [constructor|discriminate].
Qed.

Lemma loadSnapshot_loaded (snapshotId : string) (w : World) :
  loadSnapshot snapshotId w = (inr (loaded w snapshotId), w).
Proof. apply loadSnapshot_result. Qed.

Lemma loadEach_result (ids : list string) (w : World) :
  loadEach ids w = (inr (omap (loaded w) ids), w).
Proof.
  induction ids as [|i ids IH]; [reflexivity|].
  cbn [loadEach]. unfold mbind, M_bind. rewrite loadSnapshot_loaded, IH.
  cbn [omap list_omap]. destruct (loaded w i); reflexivity.
Qed.

(** X2: when the snapshots directory cannot be listed, the error is
    swallowed: the listing of identifiers and the listing of snapshots are
    empty and the count is 0. *)
Theorem unlistable_directory_is_empty (w : World) :
  snapshotsListable w = false ->
  getAllSnapshotIds w = (inr [], w)
  /\ getAllSnapshots w = (inr [], w)
  /\ getSnapshotCount w = (inr 0%nat, w).
Proof.
  intros H. unfold getAllSnapshots, getSnapshotCount, mbind, M_bind.
  rewrite getAllSnapshotIds_result, H. repeat split.
Qed.

(** X3: [getAllSnapshots] never throws and leaves the disk as it is. It
    returns, in the order of the listing of identifiers, the snapshots of
    the identifiers that load, and skips the others; so it returns at most
    [getSnapshotCount] snapshots, the count being the number of files that
    end in [.json] whether they can be read or not. *)
Theorem getAllSnapshots_skips_unreadable (w : World) :
  exists ids,
    getAllSnapshotIds w = (inr ids, w)
    /\ getAllSnapshots w = (inr (omap (loaded w) ids), w)
    /\ getSnapshotCount w = (inr (List.length ids), w)
    /\ (List.length (omap (loaded w) ids) <= List.length ids)%nat
    /\ (snapshotsListable w = true -> List.length ids = List.length (jsonFiles w)).
Proof.
  unfold getAllSnapshots, getSnapshotCount, mbind, M_bind.
  rewrite getAllSnapshotIds_result. eexists. split; [reflexivity|].
  rewrite loadEach_result. split; [reflexivity|]. split; [reflexivity|]. split.
  - generalize (rev (sortStrings (map stem (jsonFiles w)))) as l.
    destruct (snapshotsListable w); [|intros _; cbn; lia].
    induction l as [|i l IH]; [cbn; lia|].
    cbn [omap list_omap]. destruct (loaded w i); cbn [List.length]; lia.
  - intros ->. rewrite length_rev, <- (Permutation_length (sortStrings_perm _)).
    apply length_map.
Qed.

(** ** Deleting and creating *)

Lemma deleteSnapshot_result (snapshotId : string) (w : World) :
  deleteSnapshot snapshotId w
  = match snapshotsDir w !! (snapshotId ++ ".json") with
    | Some _ =>
        if snapshotsWritable w
        then (inr true,
              setSnapshotsDir (delete (snapshotId ++ ".json") (snapshotsDir w))
                (EvUnlink (snapshotId ++ ".json")) w)
        else (inr false, w)
    | None => (inr false, w)
    end.
Proof.
  unfold deleteSnapshot, tryCatch, mbind, M_bind, unlinkSnapshotFile, mret, M_ret.
  destruct (snapshotsDir w !! (snapshotId ++ ".json")); [|reflexivity].
  destruct (snapshotsWritable w); reflexivity.
Qed.

(** X4: for an identifier that makes a file name (so that the path joined
    from it stays in the snapshots directory), when [deleteSnapshot] answers
    [true], the record is gone (loading the identifier gives [null]), every
    other file of the snapshots directory is as before, the workspace is
    untouched, and the one thing that happened on disk is the removal of
    that file. *)
Theorem deleteSnapshot_removes (snapshotId : string) (w : World) :
  fileName (snapshotId ++ ".json") = true ->
  fst (deleteSnapshot snapshotId w) = inr true ->
  let w' := snd (deleteSnapshot snapshotId w) in
  loadSnapshot snapshotId w' = (inr None, w')
  /\ (forall name, name <> snapshotId ++ ".json" ->
        snapshotsDir w' !! name = snapshotsDir w !! name)
  /\ root w' = root w
  /\ journal w' = (journal w ++ [EvUnlink (snapshotId ++ ".json")])%list.
Proof.
  intros _. rewrite deleteSnapshot_result.
  destruct (snapshotsDir w !! (snapshotId ++ ".json")); [|discriminate].
  destruct (snapshotsWritable w); [|discriminate].
  intros _. cbn [snd]. rewrite loadSnapshot_loaded. unfold loaded.
  cbn [snapshotsDir setSnapshotsDir root journal]. rewrite lookup_delete_eq.
  repeat split. intros name Hne. apply lookup_delete_ne. congruence.
Qed.

(** X5: [deleteSnapshot] never throws. It answers [false] when there is no
    record of the identifier, and whenever it answers [false] the world is
    left as it was. *)
Theorem deleteSnapshot_missing (snapshotId : string) (w : World) :
  exists answer,
    fst (deleteSnapshot snapshotId w) = inr answer
    /\ (snapshotsDir w !! (snapshotId ++ ".json") = None -> answer = false)
    /\ (answer = false -> snd (deleteSnapshot snapshotId w) = w).
Proof.
  rewrite deleteSnapshot_result.
  destruct (snapshotsDir w !! (snapshotId ++ ".json")).
  - destruct (snapshotsWritable w); eexists; (split; [reflexivity|]);
      split; intros; (discriminate || reflexivity).
  - exists false. repeat split.
Qed.

Lemma readNode_statSize (filePath : list string) (n : Node) (text : string) :
  readNode filePath n = inr text ->
  statSize filePath n = inr (Z.of_nat (String.length text)).
Proof.
  unfold readNode, statSize.
  destruct (lookupNode filePath n) as [[c [|]| |]|]; try discriminate.
  intros [= ->]. reflexivity.
Qed.

Lemma generateSnapshotId_result (w : World) :
  generateSnapshotId w
  = (match JsDate.toISOString (JsDate.Instant (now w)) with
     | inr iso => inr (snapshotIdOf iso w)
     | inl e => inl e
     end, w).
Proof.
  unfold generateSnapshotId, mbind, M_bind, newDate, liftResult, toTimeString,
    mathRandomToString16, mret, M_ret.
  destruct (JsDate.toISOString (JsDate.Instant (now w))); reflexivity.
Qed.

Lemma createSnapshot_result (filePath : list string) (trigger : SnapshotTrigger)
    (w : World) :
  createSnapshot filePath trigger w
  = match readNode filePath (root w),
          JsDate.toISOString (JsDate.Instant (now w)),
          snapshotsWritable w with
    | inr text, inr iso, true =>
        (inr (Some (captured (snapshotIdOf iso w) w trigger filePath text)),
         setSnapshotsDir
           (<[snapshotIdOf iso w ++ ".json" :=
                Plain (TextOf (capturedRecord (snapshotIdOf iso w) iso trigger
                                 filePath text))]> (snapshotsDir w))
           (EvPut (snapshotIdOf iso w ++ ".json")
              (TextOf (capturedRecord (snapshotIdOf iso w) iso trigger
                         filePath text))) w)
    | _, _, _ => (inr None, w)
    end.
Proof.
  unfold createSnapshot, tryCatch, mbind, M_bind, readFile, stat.
  destruct (readNode filePath (root w)) as [e|text] eqn:Hread; [reflexivity|].
  rewrite (readNode_statSize _ _ _ Hread), generateSnapshotId_result.
  unfold newDate, saveSnapshot, serialize, toStored, liftResult, writeSnapshotFile,
    mbind, M_bind, mret, M_ret, captured, captureOf. cbn [timestamp id].
  destruct (JsDate.toISOString (JsDate.Instant (now w))) as [e|iso]; [reflexivity|].
  destruct (snapshotsWritable w); reflexivity.
Qed.

(** X6: when [createSnapshot] returns a snapshot whose identifier makes a
    file name, that snapshot is what loading its identifier returns
    afterwards; it holds one capture, the file at its relative path with
    the UTF-8 decoding of the bytes the file has as content and the number
    of these bytes as size, under the trigger asked for and the time of the
    clock. The workspace is untouched and no other file of the snapshots
    directory changes. *)
Theorem createSnapshot_stored (filePath : list string) (trigger : SnapshotTrigger)
    (w w' : World) (s : Snapshot) :
  createSnapshot filePath trigger w = (inr (Some s), w') ->
  fileName (id s ++ ".json") = true ->
  loadSnapshot (id s) w' = (inr (Some s), w')
  /\ (exists bytes, readNode filePath (root w) = inr bytes
                    /\ s = captured (id s) w trigger filePath bytes
                    /\ map content (files s) = [ JsString.utf8Decode bytes ]
                    /\ map size (files s) = [ Z.of_nat (String.length bytes) ])
  /\ root w' = root w
  /\ (forall name, name <> id s ++ ".json" ->
        snapshotsDir w' !! name = snapshotsDir w !! name).
Proof.
  rewrite createSnapshot_result.
  destruct (readNode filePath (root w)) as [e|text]; [discriminate|].
  destruct (JsDate.toISOString (JsDate.Instant (now w))) as [e|iso] eqn:Hiso;
    [discriminate|].
  destruct (snapshotsWritable w); [|discriminate].
  intros [= <- <-] _. cbn [id captured].
  split; [|split; [exists text; repeat split|split; [reflexivity|]]].
  - rewrite loadSnapshot_loaded. unfold loaded.
    cbn [snapshotsDir setSnapshotsDir]. rewrite lookup_insert_eq.
    unfold ofStored, capturedRecord. cbn.
    rewrite (ofString_toISOString _ _ Hiso). reflexivity.
  - intros name Hne. cbn [snapshotsDir setSnapshotsDir].
    apply lookup_insert_ne. congruence.
Qed.

(** X7: [createSnapshot] never throws and never changes the workspace. It
    returns [null] when the file cannot be read and when the record cannot
    be written, and whenever it returns [null] nothing at all has been
    written. *)
Theorem createSnapshot_null (filePath : list string) (trigger : SnapshotTrigger)
    (w : World) :
  exists result,
    fst (createSnapshot filePath trigger w) = inr result
    /\ root (snd (createSnapshot filePath trigger w)) = root w
    /\ (result = None -> snd (createSnapshot filePath trigger w) = w)
    /\ ((forall text, readNode filePath (root w) <> inr text) -> result = None)
    /\ (snapshotsWritable w = false -> result = None).
Proof.
  rewrite createSnapshot_result.
  destruct (readNode filePath (root w)) as [e|text].
  { exists None. repeat split. }
  destruct (JsDate.toISOString (JsDate.Instant (now w))) as [e|iso].
  { exists None. repeat split. }
  destruct (snapshotsWritable w).
  - eexists. split; [reflexivity|]. split; [reflexivity|].
    split; [discriminate|]. split; [|discriminate].
    intros H. destruct (H text eq_refl).
  - exists None. repeat split.
Qed.

(** ** What a restore writes *)

(** After [writeFile] the file holds the text written. *)
Lemma writeNode_same (target : list string) :
  forall (c : string) (n n' : Node),
    writeNode target c n = inr n' -> fileAt target n' = Some c.
Proof.
  induction target as [|d rest IH]; intros c n n' Hw.
  - destruct n; discriminate.
  - destruct n as [t r|es l|]; try discriminate.
    cbn [writeNode] in Hw. rewrite fileAt_cons.
    destruct rest as [|r rest'].
    + destruct (entryLookup d es) as [[t r0| |]|] eqn:Hd; try discriminate;
        injection Hw as <-.
      * rewrite entryLookup_update, Hd, String.eqb_refl. reflexivity.
      * rewrite entryLookup_snoc by exact Hd. rewrite String.eqb_refl. reflexivity.
    + destruct (entryLookup d es) as [child|] eqn:Hd; [|discriminate].
      destruct (writeNode (r :: rest') c child) as [e|child'] eqn:Hc; [discriminate|].
      injection Hw as <-.
      rewrite entryLookup_update, Hd, String.eqb_refl.
      apply (IH c child child' Hc).
Qed.

Lemma writeFile_same (file : list string) (c : string) (w w' : World) :
  writeFile file c w = (inr tt, w') -> fileAt file (root w') = Some c.
Proof.
  unfold writeFile. destruct (writeNode file c (root w)) as [e|r] eqn:Hw; [discriminate|].
  intros [= <-]. apply (writeNode_same _ _ _ _ Hw).
Qed.

Lemma restoreFile_same (file : FileSnapshot) (w w' : World) :
  restoreFile file w = (inr tt, w') ->
  fileAt (resolvePath (path file)) (root w') = Some (content file).
Proof.
  unfold restoreFile, mbind, M_bind, existsSync, mkdirSync, mret, M_ret.
  destruct (lookupNode (dirname (resolvePath (path file))) (root w)).
  - apply writeFile_same.
  - destruct (mkdirp (dirname (resolvePath (path file))) (root w)); [discriminate|].
    apply writeFile_same.
Qed.

Lemma resolvePath_inj (p q : string) : resolvePath p = resolvePath q -> p = q.
Proof.
  intros H. rewrite <- (relativePath_resolvePath p), <- (relativePath_resolvePath q), H.
  reflexivity.
Qed.

(** In a loop of writes that ran to its end, the last capture of a path is
    what the file holds. *)
Lemma forEach_last_writer (before : list FileSnapshot) :
  forall (file : FileSnapshot) (after : list FileSnapshot) (w w' : World),
    forEach (before ++ file :: after) restoreFile w = (inr tt, w') ->
    ~ In (path file) (map path after) ->
    fileAt (resolvePath (path file)) (root w') = Some (content file).
Proof.
  induction before as [|x before IH]; intros file after w w' Hrun Hlast.
  - cbn [app forEach] in Hrun. unfold mbind, M_bind in Hrun.
    destruct (restoreFile file w) as [[e|[]] w1] eqn:Hfile; [discriminate|].
    pose proof (forEach_restoreFile_effect after w1) as (_ & _ & Hframe).
    rewrite Hrun in Hframe. cbn [snd] in Hframe.
    rewrite Hframe; [apply (restoreFile_same _ _ _ Hfile)|].
    intros Hin. apply Hlast.
    apply in_map_iff in Hin as (f & Hf & Hin).
    apply resolvePath_inj in Hf. rewrite <- Hf. apply in_map, Hin.
  - cbn [app forEach] in Hrun. unfold mbind, M_bind in Hrun.
    destruct (restoreFile x w) as [[e|[]] w1]; [discriminate|].
    apply (IH file after w1 w' Hrun Hlast).
Qed.

Lemma restoreSnapshot_success (snapshotId : string) (target : Snapshot)
    (w w' : World) (result : RestoreResult) :
  fst (loadSnapshot snapshotId w) = inr (Some target) ->
  restoreSnapshot snapshotId w = (inr result, w') ->
  success result = true ->
  exists backup wb,
    createBackupBeforeRestore w = (inr backup, wb)
    /\ forEach (files target) restoreFile wb = (inr tt, w')
    /\ result = restored backup.
Proof.
  intros Hload Hrun Hok. rewrite (restoreSnapshot_found _ _ _ Hload) in Hrun.
  destruct (createBackupBeforeRestore w) as [[e|backup] wb].
  - injection Hrun as <- <-. discriminate.
  - destruct (forEach (files target) restoreFile wb) as [[e|[]] w1] eqn:Hloop;
      injection Hrun as <- <-; [discriminate|].
    exists backup, wb. split; [reflexivity|]. split; [exact Hloop|reflexivity].
Qed.

(** X8: after a restore that succeeded, of a snapshot whose paths are tidy,
    each file listed in the snapshot holds the text of its capture; when a
    path is listed several times the last capture of it counts. *)
Theorem restore_writes_captures (snapshotId : string) (target : Snapshot)
    (w w' : World) (result : RestoreResult)
    (before : list FileSnapshot) (file : FileSnapshot) (after : list FileSnapshot) :
  fst (loadSnapshot snapshotId w) = inr (Some target) ->
  forallb (fun f => tidy (path f)) (files target) = true ->
  restoreSnapshot snapshotId w = (inr result, w') ->
  success result = true ->
  files target = (before ++ file :: after)%list ->
  ~ In (path file) (map path after) ->
  fileAt (resolvePath (path file)) (root w') = Some (content file).
Proof.
  intros Hload _ Hrun Hok Hfiles Hlast.
  destruct (restoreSnapshot_success _ _ _ _ _ Hload Hrun Hok) as (backup & wb & _ & Hloop & _).
  rewrite Hfiles in Hloop. apply (forEach_last_writer _ _ _ _ _ Hloop Hlast).
Qed.

(** ** The backup of a restore *)

Lemma backupFiles_captures (allFiles : list (list string)) (w : World) :
  backupFiles allFiles w = (inr (capturesOf (root w) allFiles), w).
Proof.
  induction allFiles as [|f rest IH]; [reflexivity|].
  cbn [backupFiles capturesOf flat_map]. unfold mbind, M_bind.
  fold (capturesOf (root w) rest).
  assert (Hone : backupFile f w
                 = (inr match readNode f (root w) with
                        | inr text => [ captureOf f text ]
                        | inl _ => []
                        end, w)).
  { unfold backupFile, tryCatch, mbind, M_bind, readFile, stat.
    destruct (readNode f (root w)) as [e|text] eqn:Hread; [reflexivity|].
    rewrite (readNode_statSize _ _ _ Hread). reflexivity. }
  rewrite Hone, IH. reflexivity.
Qed.

Lemma createBackup_result (w : World) :
  createBackupBeforeRestore w
  = match JsDate.toISOString (JsDate.Instant (now w)), walkDir [] (root w) with
    | inr iso, inr allFiles =>
        if snapshotsWritable w
        then (inr ("backup_" ++ snapshotIdOf iso w),
              setSnapshotsDir
                (<[("backup_" ++ snapshotIdOf iso w) ++ ".json" :=
                     Plain (TextOf (backupRecord (snapshotIdOf iso w) iso
                                      (capturesOf (root w) allFiles)))]>
                   (snapshotsDir w))
                (EvPut (("backup_" ++ snapshotIdOf iso w) ++ ".json")
                   (TextOf (backupRecord (snapshotIdOf iso w) iso
                              (capturesOf (root w) allFiles)))) w)
        else (inl EACCES, w)
    | inl e, _ => (inl e, w)
    | inr _, inl e => (inl e, w)
    end.
Proof.
  unfold createBackupBeforeRestore, mbind, M_bind.
  rewrite generateSnapshotId_result.
  destruct (JsDate.toISOString (JsDate.Instant (now w))) as [e|iso] eqn:Hiso;
    [reflexivity|].
  unfold getAllWorkspaceFiles.
  destruct (walkDir [] (root w)) as [e|allFiles]; [reflexivity|].
  rewrite backupFiles_captures.
  unfold newDate, saveSnapshot, serialize, toStored, liftResult, writeSnapshotFile,
    mbind, M_bind, mret, M_ret. cbn [timestamp id]. rewrite Hiso.
  destruct (snapshotsWritable w); reflexivity.
Qed.

Lemma restore_keeps_directory (captures : list FileSnapshot) (w : World) :
  snapshotsDir (snd (forEach captures restoreFile w)) = snapshotsDir w.
Proof. apply (forEach_restoreFile_effect captures w). Qed.

(** X9: the restore of a stored snapshot whose captures are at workspace
    files (tidy paths outside [.hindsight]) never throws. When it reports
    success it returns the identifier of the backup and no error, and
    loading that identifier afterwards gives the backup: a [manual]
    snapshot taken at the time of the clock. When it reports failure it
    returns an error message and no backup identifier, also when the backup
    had been written before a write failed. *)
Theorem restore_result_shape (snapshotId : string) (target : Snapshot) (w : World) :
  fst (loadSnapshot snapshotId w) = inr (Some target) ->
  forallb (fun f => workspaceFile (path f)) (files target) = true ->
  exists result,
    fst (restoreSnapshot snapshotId w) = inr result
    /\ (success result = true ->
        exists backup captures,
          backupId result = Some backup /\ error result = None
          /\ loadSnapshot backup (snd (restoreSnapshot snapshotId w))
             = (inr (Some (backupSnapshot backup w captures)),
                snd (restoreSnapshot snapshotId w)))
    /\ (success result = false ->
        backupId result = None /\ exists message, error result = Some message).
Proof.
  intros Hload _.
  rewrite (restoreSnapshot_found _ _ _ Hload), createBackup_result.
  destruct (JsDate.toISOString (JsDate.Instant (now w))) as [e|iso] eqn:Hiso.
  { exists (failed e). split; [reflexivity|]. split; [discriminate|].
    intros _. split; [reflexivity|eauto]. }
  destruct (walkDir [] (root w)) as [e|allFiles].
  { exists (failed e). split; [reflexivity|]. split; [discriminate|].
    intros _. split; [reflexivity|eauto]. }
  destruct (snapshotsWritable w).
  2:{ exists (failed EACCES). split; [reflexivity|]. split; [discriminate|].
      intros _. split; [reflexivity|eauto]. }
  match goal with
  | |- context [forEach ?l ?f ?w0] =>
      pose proof (restore_keeps_directory l w0) as Hdir;
      destruct (forEach l f w0) as [[e|[]] w'] eqn:Hloop
  end; cbn [fst snd] in *.
  - exists (failed e). split; [reflexivity|]. split; [discriminate|].
    intros _. split; [reflexivity|eauto].
  - eexists. split; [reflexivity|]. split; [|discriminate].
    intros _. eexists _, (capturesOf (root w) allFiles).
    split; [reflexivity|]. split; [reflexivity|].
    rewrite loadSnapshot_loaded. unfold loaded. rewrite Hdir.
    cbn [snapshotsDir setSnapshotsDir]. rewrite lookup_insert_eq.
    unfold ofStored, backupRecord, backupSnapshot. cbn.
    rewrite (ofString_toISOString _ _ Hiso). reflexivity.
Qed.

Lemma walkEntries_not_ignored (dir : list string) (es : list (string * Node)) :
  List.Forall (fun e => forall dir' found,
                  walkDir dir' (snd e) = inr found ->
                  forall p, In p found -> walkIgnores (relativePath p) = false) es ->
  forall found, walkEntries dir es = inr found ->
  forall p, In p found -> walkIgnores (relativePath p) = false.
Proof.
  induction 1 as [|[name entry] es Hentry Hes IH]; intros found Hw p Hin.
  - injection Hw as <-. destruct Hin.
  - cbn [walkEntries] in Hw. cbn [snd] in Hentry.
    destruct (walkIgnores (relativePath (dir ++ [name]))) eqn:Hi; [apply (IH _ Hw _ Hin)|].
    destruct entry as [c r|sub l|]; [| |apply (IH _ Hw _ Hin)].
    + destruct (walkEntries dir es) as [e|more]; [discriminate|].
      injection Hw as <-. destruct Hin as [<-|Hin]; [exact Hi|].
      apply (IH more eq_refl _ Hin).
    + destruct (walkDir (dir ++ [name]) (Dir sub l)) as [e|here] eqn:Hhere; [discriminate|].
      destruct (walkEntries dir es) as [e|more]; [discriminate|].
      injection Hw as <-. apply in_app_or in Hin as [Hin|Hin].
      * apply (Hentry _ _ Hhere _ Hin).
      * apply (IH more eq_refl _ Hin).
Qed.

(** The walk returns no path that contains an ignore pattern. *)
Lemma walkDir_not_ignored (n : Node) :
  forall dir found,
    walkDir dir n = inr found ->
    forall p, In p found -> walkIgnores (relativePath p) = false.
Proof.
  induction n as [c r|es l IH|] using Node_entries_ind; intros dir found Hw; try discriminate.
  destruct l; [|discriminate]. rewrite walkDir_entries in Hw.
  apply (walkEntries_not_ignored dir es IH found Hw).
Qed.

Lemma capturesOf_In (n : Node) (allFiles : list (list string)) (f : FileSnapshot) :
  In f (capturesOf n allFiles) ->
  exists filePath bytes,
    In filePath allFiles
    /\ readNode filePath n = inr bytes
    /\ f = captureOf filePath bytes.
Proof.
  unfold capturesOf. intros Hin. apply in_flat_map in Hin as (filePath & Hfile & Hin).
  exists filePath.
  destruct (readNode filePath n) as [e|bytes]; [destruct Hin|].
  destruct Hin as [<-|[]]. exists bytes. repeat split. exact Hfile.
Qed.

(** X10: the backup of a successful restore, of a snapshot whose captures
    are at workspace files, holds only regular files of the workspace as it
    was before the restore, each with the UTF-8 decoding of the bytes it
    had as content and the number of these bytes as size, and none at a
    path that contains [node_modules], [.git], [dist], [build], [out],
    [.vscode] or [.hindsight]. *)
Theorem backup_holds_workspace_files (snapshotId : string) (target : Snapshot)
    (w : World) (result : RestoreResult) (backup : string) (saved : Snapshot)
    (f : FileSnapshot) :
  fst (loadSnapshot snapshotId w) = inr (Some target) ->
  forallb (fun c => workspaceFile (path c)) (files target) = true ->
  fst (restoreSnapshot snapshotId w) = inr result ->
  success result = true ->
  backupId result = Some backup ->
  fst (loadSnapshot backup (snd (restoreSnapshot snapshotId w))) = inr (Some saved) ->
  In f (files saved) ->
  walkIgnores (path f) = false
  /\ exists filePath bytes,
       readNode filePath (root w) = inr bytes
       /\ path f = relativePath filePath
       /\ content f = JsString.utf8Decode bytes
       /\ size f = Z.of_nat (String.length bytes).
Proof.
  intros Hload _ Hres Hok Hb Hsaved Hin.
  rewrite (restoreSnapshot_found _ _ _ Hload), createBackup_result in Hres, Hsaved.
  destruct (JsDate.toISOString (JsDate.Instant (now w))) as [e|iso] eqn:Hiso;
    [injection Hres as <-; discriminate|].
  destruct (walkDir [] (root w)) as [e|allFiles] eqn:Hwalk;
    [injection Hres as <-; discriminate|].
  destruct (snapshotsWritable w); [|injection Hres as <-; discriminate].
  match type of Hres with
  | context [forEach ?l ?f ?w0] =>
      pose proof (restore_keeps_directory l w0) as Hdir;
      destruct (forEach l f w0) as [[e|[]] w'] eqn:Hloop
  end; cbn [fst snd] in *; injection Hres as <-; [discriminate|].
  injection Hb as <-.
  rewrite loadSnapshot_loaded in Hsaved. unfold loaded in Hsaved. rewrite Hdir in Hsaved.
  cbn [snapshotsDir setSnapshotsDir fst] in Hsaved.
  rewrite lookup_insert_eq in Hsaved. injection Hsaved as <-.
  cbn [files ofStored stored_files backupRecord] in Hin.
  apply capturesOf_In in Hin as (filePath & bytes & Hfile & Hread & ->). split.
  - apply (walkDir_not_ignored (root w) [] allFiles Hwalk _ Hfile).
  - exists filePath, bytes. repeat split. exact Hread.
Qed.

(** ** Undoing a restore *)















(** ** The form of an identifier *)

Lemma digit_not_separator (k : Z) :
  Ascii.eqb "-" (JsDate.digitChar (k mod 10)) = false
  /\ Ascii.eqb ":" (JsDate.digitChar (k mod 10)) = false.
Proof.
  assert (H : 0 <= k mod 10 <= 9) by lia.
  generalize dependent (k mod 10). intros n H. each_digit n.
Qed.

Lemma fixed_length (width : nat) :
  forall n rest, String.length (JsDate.fixed width n rest) = (width + String.length rest)%nat.
Proof.
  induction width as [|width IH]; intros n rest; [reflexivity|].
  cbn [JsDate.fixed]. rewrite IH. cbn [String.length]. lia.
Qed.

Lemma civil_year_bound (z y m d : Z) :
  1 <= m <= 12 -> 1 <= d <= 31 ->
  JsDate.daysFromCivil y m d = z -> z <= 2932896 -> y <= 9999.
Proof.
  unfold JsDate.daysFromCivil, JsDate.doeOfCivil. intros Hm Hd Hz Hmax.
  destruct (Z.leb_spec m 2); destruct (Z.gtb_spec m 2); lia.
Qed.

(** X12: while the clock is between 1970 and the end of the year 9999, the
    identifier generated is [snapshot_], the eight digits of the UTC date,
    [_], the six digits of the local time of day, [_], and the characters
    at positions 2 to 7 of the random text; the date and the time have
    their full width whatever the instant. *)
Theorem generateSnapshotId_format (w : World) :
  0 <= now w <= 253402300799999 ->
  let '(y, m, d) := JsDate.civilFromDays (now w / JsDate.msPerDay) in
  let tod := (now w + tzOffset w * 60000) mod JsDate.msPerDay in
  generateSnapshotId w
  = (inr ("snapshot_" ++ dateDigits y m d ++ "_" ++ timeDigits tod ++ "_"
          ++ String.substring 2 6 (randomText w)), w)
  /\ String.length (dateDigits y m d) = 8%nat
  /\ String.length (timeDigits tod) = 6%nat.
Proof.
  intros Hnow. rewrite generateSnapshotId_result.
  assert (Hrange : JsDate.inRange (now w) = true).
  { unfold JsDate.inRange, JsDate.maxTime.
    apply andb_true_intro. split; apply Z.leb_le; lia. }
  unfold JsDate.toISOString. rewrite Hrange.
  pose proof (civilFromDays_inverse (now w / JsDate.msPerDay)) as Hcivil.
  destruct (JsDate.civilFromDays (now w / JsDate.msPerDay)) as [[y m] d].
  destruct Hcivil as (Hm & Hd & Hdays & Hy).
  unfold JsDate.msPerDay in *.
  assert (Hy9 : y <= 9999) by (apply (civil_year_bound _ y m d Hm Hd Hdays); lia).
  assert (Hy0 : 0 <= y) by lia.
  split; [|split; unfold dateDigits, timeDigits; rewrite !fixed_length; reflexivity].
  f_equal. f_equal. unfold snapshotIdOf, JsDate.yearString, JsDate.toTimeString,
    JsDate.clockString, dateDigits, timeDigits, JsDate.msPerDay.
  destruct (Z.leb_spec 0 y); [|lia]. destruct (Z.leb_spec y 9999); [|lia].
  cbn [andb JsDate.fixed JsString.slice String.substring Nat.sub JsString.removeAll].
  repeat match goal with
         | |- context [Ascii.eqb "-" (JsDate.digitChar (?k mod 10))] =>
             rewrite (proj1 (digit_not_separator k))
         | |- context [Ascii.eqb ":" (JsDate.digitChar (?k mod 10))] =>
             rewrite (proj2 (digit_not_separator k))
         end.
  reflexivity.
Qed.


(** * Further properties of the diff viewer *)

Lemma hasChar_app (c : ascii) (a b : string) :
  hasChar c (a ++ b) = hasChar c a || hasChar c b.
Proof.
  induction a as [|d a IH]; [reflexivity|].
  change (String d a ++ b) with (String d (a ++ b)).
  cbn [hasChar]. rewrite IH. apply orb_assoc.
Qed.

(** X13: the text [escapeHtml] returns contains none of [<], [>], the double
    quote and the single quote, whatever the text given; and a text that
    contains none of these and no [&] is returned as it is. *)
Theorem escapeHtml_no_markup (text : string) :
  (forall c, In c markupChars -> hasChar c (escapeHtml text) = false)
  /\ ((forall c, In c ("&"%char :: markupChars) -> hasChar c text = false) ->
      escapeHtml text = text).
Proof.
  split.
  - intros c Hc. induction text as [|d text IH]; [reflexivity|].
    cbn [escapeHtml]. rewrite hasChar_app, IH, orb_false_r.
    destruct (Ascii.eqb_spec d "&"); [destruct Hc as [<-|[<-|[<-|[<-|[]]]]]; reflexivity|].
    destruct (Ascii.eqb_spec d "<"); [destruct Hc as [<-|[<-|[<-|[<-|[]]]]]; reflexivity|].
    destruct (Ascii.eqb_spec d ">"); [destruct Hc as [<-|[<-|[<-|[<-|[]]]]]; reflexivity|].
    destruct (Ascii.eqb_spec d "034"); [destruct Hc as [<-|[<-|[<-|[<-|[]]]]]; reflexivity|].
    destruct (Ascii.eqb_spec d "'"); [destruct Hc as [<-|[<-|[<-|[<-|[]]]]]; reflexivity|].
    cbn [hasChar]. rewrite orb_false_r.
    destruct (Ascii.eqb_spec c d) as [<-|]; [|reflexivity].
    destruct Hc as [<-|[<-|[<-|[<-|[]]]]]; congruence.
  - induction text as [|d text IH]; intros Hsafe; [reflexivity|].
    cbn [escapeHtml].
    assert (Hd : forall c, In c ("&"%char :: markupChars) -> Ascii.eqb d c = false).
    { intros c Hc. specialize (Hsafe c Hc). cbn [hasChar] in Hsafe.
      apply orb_false_iff in Hsafe as [Hcd _]. rewrite Ascii.eqb_sym. exact Hcd. }
    rewrite !Hd by (cbn; tauto).
    rewrite IH; [reflexivity|].
    intros c Hc. specialize (Hsafe c Hc). cbn [hasChar] in Hsafe.
    apply orb_false_iff in Hsafe as [_ Hrest]. exact Hrest.
Qed.

Lemma setAdd_NoDup (x : string) (set : list string) :
  List.NoDup set -> List.NoDup (setAdd x set).
Proof.
  intros Hnd. unfold setAdd. destruct (existsb (String.eqb x) set) eqn:E; [exact Hnd|].
  apply List.NoDup_app; [exact Hnd|repeat constructor; intros []|].
  intros a Ha [Hxa|[]]. subst a.
  assert (existsb (String.eqb x) set = true); [|congruence].
  apply existsb_exists. exists x. split; [exact Ha|apply String.eqb_refl].
Qed.

Lemma addPaths_NoDup (captures : list FileSnapshot) :
  forall set, List.NoDup set ->
    List.NoDup (fold_left (fun set f => setAdd (path f) set) captures set).
Proof.
  induction captures as [|f rest IH]; intros set Hnd; [exact Hnd|].
  cbn [fold_left]. apply IH, setAdd_NoDup, Hnd.
Qed.

(** X14: the diff of two snapshots has exactly one entry for each path that
    occurs in either of them, however often the path occurs. *)
Theorem diffs_one_entry_per_path (diffLines : string -> string -> list Change)
    (oldSnapshot newSnapshot : Snapshot) :
  List.NoDup (map diffPath (diffs diffLines oldSnapshot newSnapshot))
  /\ forall filePath,
       In filePath (map diffPath (diffs diffLines oldSnapshot newSnapshot))
       <-> In filePath (map path (files oldSnapshot))
           \/ In filePath (map path (files newSnapshot)).
Proof.
  assert (Hpaths : map diffPath (diffs diffLines oldSnapshot newSnapshot)
                   = allFilePaths oldSnapshot newSnapshot).
  { unfold diffs. rewrite map_map. cbn [diffPath fileDiffOf]. apply map_id. }
  rewrite Hpaths. split.
  - unfold allFilePaths. apply addPaths_NoDup, addPaths_NoDup. constructor.
  - intros filePath. apply allFilePaths_In.
Qed.

(** X15: a path gets no entry in the rendered diff exactly when it is in
    both snapshots with the same content: a file that was added, deleted
    or modified is never left out. *)
Theorem entry_omitted_iff_unchanged (diffLines : string -> string -> list Change)
    (oldSnapshot newSnapshot : Snapshot) (filePath : string) :
  generateFileDiffHtml (fileDiffOf diffLines oldSnapshot newSnapshot filePath)
  = EmptyString
  <-> exists oldFile newFile,
        findFile oldSnapshot filePath = Some oldFile
        /\ findFile newSnapshot filePath = Some newFile
        /\ content oldFile = content newFile.
Proof.
  split.
  - intros Hempty.
    destruct (optionStringEqb
                (oldContent (fileDiffOf diffLines oldSnapshot newSnapshot filePath))
                (newContent (fileDiffOf diffLines oldSnapshot newSnapshot filePath)))
      eqn:E; [|destruct (changed_file_html _ E Hempty)].
    revert Hempty E. unfold generateFileDiffHtml, fileDiffOf.
    cbn [oldContent newContent].
    destruct (findFile oldSnapshot filePath) as [oldFile|]; [|discriminate].
    destruct (findFile newSnapshot filePath) as [newFile|]; [|discriminate].
    intros _ E. cbn in E. apply String.eqb_eq in E. eauto.
  - intros (oldFile & newFile & Ho & Hn & Hc).
    apply (unchanged_file_html _ _ _ _ _ _ Ho Hn Hc).
Qed.


(** * The file watcher *)

Lemma includes_app_r (s t pat : string) :
  JsString.includes t pat = true -> JsString.includes (s ++ t) pat = true.
Proof.
  intros H. induction s as [|c s IH]; [exact H|].
  change (JsString.includes (String c s ++ t) pat)
    with (String.prefix pat (String c s ++ t) || JsString.includes (s ++ t) pat).
  rewrite IH. apply orb_true_r.
Qed.

(** A pattern found in one segment of a path is found in the path. *)
Lemma includes_relativePath (segs : list string) (seg pat : string) :
  In seg segs -> JsString.includes seg pat = true ->
  JsString.includes (relativePath segs) pat = true.
Proof.
  unfold relativePath. intros Hin Hseg.
  induction segs as [|x segs IH]; [destruct Hin|].
  destruct segs as [|y segs].
  - destruct Hin as [->|[]]. exact Hseg.
  - change (String.concat "/" (x :: y :: segs))
      with (x ++ "/" ++ String.concat "/" (y :: segs)).
    destruct Hin as [->|Hin].
    + apply includes_app_l, Hseg.
    + apply includes_app_r, includes_app_r, IH, Hin.
Qed.

Lemma createSnapshot_outcome (filePath : list string) (trigger : SnapshotTrigger)
    (w : World) :
  exists result w',
    createSnapshot filePath trigger w = (inr result, w') /\ root w' = root w.
Proof.
  rewrite createSnapshot_result.
  destruct (readNode filePath (root w)); [eauto|].
  destruct (JsDate.toISOString (JsDate.Instant (now w))); [eauto|].
  destruct (snapshotsWritable w); eauto.
Qed.

Lemma onFileChanged_outcome (toLocaleTimeString : JsDate.Date -> string)
    (self : FileWatcher.State) (filePath : list string) (eventType : FileEvent)
    (w : World) :
  exists self' shown w',
    FileWatcher.onFileChanged toLocaleTimeString self filePath eventType w
    = (inr (self', shown), w')
    /\ root w' = root w
    /\ FileWatcher.watcher self' = FileWatcher.watcher self
    /\ FileWatcher.filesChanged self'
       = (FileWatcher.filesChanged self
          + length (tracked [ (filePath, eventType) ]))%nat.
Proof.
  unfold FileWatcher.onFileChanged, tracked. cbn [List.filter fst].
  destruct (shouldIgnoreFile (relativePath filePath)).
  { exists self, [], w. cbn. repeat split. lia. }
  unfold FileWatcher.createSnapshotForFile, mbind, M_bind, newDate, mret, M_ret.
  cbn [negb length].
  destruct eventType.
  3: { eexists _, _, w. repeat split. cbn. lia. }
  all: match goal with
       | |- context [createSnapshot ?f ?t ?w0] =>
           destruct (createSnapshot_outcome f t w0) as (r & w' & -> & Hroot)
       end;
    eexists _, _, _; (split; [reflexivity|]); repeat split; cbn; try lia; exact Hroot.
Qed.

(** X16: an event for a file below a directory whose name contains one of
    the watcher's patterns (or for a file whose own name does) is dropped:
    nothing is counted, shown or written. *)
Theorem watcher_drops_ignored_directory (toLocaleTimeString : JsDate.Date -> string)
    (self : FileWatcher.State) (filePath : list string) (seg pattern : string)
    (eventType : FileEvent) (w : World) :
  In pattern watcherIgnorePatterns ->
  In seg filePath ->
  JsString.includes seg pattern = true ->
  FileWatcher.onFileChanged toLocaleTimeString self filePath eventType w
  = (inr (self, []), w).
Proof.
  intros Hpat Hseg Hinc. unfold FileWatcher.onFileChanged.
  assert (Hignored : shouldIgnoreFile (relativePath filePath) = true).
  { unfold shouldIgnoreFile. apply existsb_exists. exists pattern.
    split; [exact Hpat|]. apply (includes_relativePath _ seg); assumption. }
  rewrite Hignored. reflexivity.
Qed.

(** X17: a series of file events never throws and never changes the
    workspace; the watcher stays started or stopped as it was, and its
    counter grows by the number of events whose path is not ignored,
    whether or not a snapshot could be made for them. *)
Theorem watcher_counts_tracked_events (toLocaleTimeString : JsDate.Date -> string)
    (events : list (list string * FileEvent)) (self : FileWatcher.State) (w : World) :
  exists self' w',
    FileWatcher.onFileEvents toLocaleTimeString self events w = (inr self', w')
    /\ root w' = root w
    /\ FileWatcher.watcher self' = FileWatcher.watcher self
    /\ FileWatcher.filesChanged self'
       = (FileWatcher.filesChanged self + length (tracked events))%nat.
Proof.
  revert self w. induction events as [|[filePath eventType] events IH]; intros self w.
  { exists self, w. cbn. repeat split. lia. }
  cbn [FileWatcher.onFileEvents]. unfold mbind, M_bind.
  destruct (onFileChanged_outcome toLocaleTimeString self filePath eventType w)
    as (self1 & shown & w1 & -> & Hroot & Hwatcher & Hcount).
  cbn [fst].
  destruct (IH self1 w1) as (self2 & w2 & -> & Hroot2 & Hwatcher2 & Hcount2).
  exists self2, w2. split; [reflexivity|].
  split; [congruence|]. split; [congruence|].
  rewrite Hcount2, Hcount. unfold tracked. cbn [List.filter fst].
  destruct (negb (shouldIgnoreFile (relativePath filePath))); cbn [length]; lia.
Qed.

(** X18: when a file that is not ignored is changed or created, can be
    read, and the record can be written under an identifier that makes a
    file name, the watcher stores a snapshot that loads afterwards as one
    capture of the file, with the UTF-8 decoding of its bytes as content and
    their number as size, under the trigger [file_create] for a created file
    and [file_save] for a changed one; the time of the change is noted. *)
Theorem watcher_captures_file (toLocaleTimeString : JsDate.Date -> string)
    (self : FileWatcher.State) (filePath : list string) (eventType : FileEvent)
    (w : World) (text iso : string) :
  shouldIgnoreFile (relativePath filePath) = false ->
  eventType <> deleted ->
  readNode filePath (root w) = inr text ->
  JsDate.toISOString (JsDate.Instant (now w)) = inr iso ->
  snapshotsWritable w = true ->
  fileName (snapshotIdOf iso w ++ ".json") = true ->
  exists self' w',
    FileWatcher.onFileChanged toLocaleTimeString self filePath eventType w
    = (inr (self', [ StatusBarMessage ("Hindsight: " ++ basename filePath ++ " "
                                       ++ eventName eventType) ]), w')
    /\ loadSnapshot (snapshotIdOf iso w) w'
       = (inr (Some {| id := snapshotIdOf iso w;
                       timestamp := JsDate.Instant (now w);
                       trigger := triggerOf eventType;
                       files := [ {| path := relativePath filePath;
                                     content := JsString.utf8Decode text;
                                     size := Z.of_nat (String.length text) |} ];
                       gitCommit := None |}), w')
    /\ FileWatcher.lastChangeTime self'
       = Some (toLocaleTimeString (JsDate.Instant (now w))).
Proof.
  intros Hignored Hevent Hread Hiso Hwritable _.
  unfold FileWatcher.onFileChanged. rewrite Hignored.
  unfold FileWatcher.createSnapshotForFile, mbind, M_bind, newDate, mret, M_ret.
  assert (Hstored : forall trigger w',
             snd (createSnapshot filePath trigger w) = w' ->
             loadSnapshot (snapshotIdOf iso w) w'
             = (inr (Some (captured (snapshotIdOf iso w) w trigger filePath text)), w')).
  { intros trigger w'. rewrite createSnapshot_result, Hread, Hiso, Hwritable.
    cbn [snd]. intros <-. rewrite loadSnapshot_loaded. unfold loaded.
    cbn [snapshotsDir setSnapshotsDir]. rewrite lookup_insert_eq.
    unfold ofStored, capturedRecord. cbn.
    rewrite (ofString_toISOString _ _ Hiso). reflexivity. }
  destruct eventType; [| |congruence].
  all: match goal with
       | |- context [createSnapshot ?f ?t ?w0] =>
           specialize (Hstored t _ eq_refl);
           destruct (createSnapshot f t w0) as [[e|r] w'] eqn:Hcreate
       end.
  all: try (rewrite createSnapshot_result, Hread, Hiso, Hwritable in Hcreate;
            discriminate).
  all: cbn [snd] in Hstored; eexists _, _; split; [reflexivity|];
       split; [exact Hstored|reflexivity].
Qed.

(** X19: an event that is not ignored but gives no snapshot (the file was
    deleted, or it cannot be read) is still counted and shown, and writes
    nothing. *)
Theorem watcher_event_without_capture (toLocaleTimeString : JsDate.Date -> string)
    (self : FileWatcher.State) (filePath : list string) (eventType : FileEvent)
    (w : World) :
  shouldIgnoreFile (relativePath filePath) = false ->
  eventType = deleted \/ (exists e, readNode filePath (root w) = inl e) ->
  FileWatcher.onFileChanged toLocaleTimeString self filePath eventType w
  = (inr ({| FileWatcher.watcher := FileWatcher.watcher self;
             FileWatcher.filesChanged := S (FileWatcher.filesChanged self);
             FileWatcher.lastChangeTime :=
               Some (toLocaleTimeString (JsDate.Instant (now w))) |},
          [ StatusBarMessage ("Hindsight: " ++ basename filePath ++ " "
                              ++ eventName eventType) ]), w).
Proof.
  intros Hignored Hwhy. unfold FileWatcher.onFileChanged. rewrite Hignored.
  unfold FileWatcher.createSnapshotForFile, mbind, M_bind, newDate, mret, M_ret.
  destruct Hwhy as [->|[e Hread]]; [reflexivity|].
  destruct eventType; [| |reflexivity];
    rewrite createSnapshot_result, Hread; reflexivity.
Qed.


(** * The timeline view *)

Lemma step_viewInvariant (st : TimelineView.State) (a : TimelineView.Action) :
  viewInvariant st -> viewInvariant (fst (TimelineView.step st a)).
Proof.
  unfold viewInvariant. intros (Hnew & Hold & Hbutton).
  destruct a as [|snapshotId|]; cbn [TimelineView.step fst].
  - unfold TimelineView.toggleCompareMode.
    destruct (TimelineView.compareMode st); cbn; repeat split.
  - unfold TimelineView.selectSnapshot.
    destruct (TimelineView.compareMode st) eqn:Hmode.
    + rewrite Hnew. cbn [TimelineView.truthy negb].
      destruct (negb (TimelineView.truthy (TimelineView.compareOld st)));
        cbn; rewrite ?Hmode; repeat split; try discriminate; assumption.
    + cbn. rewrite ?Hmode. repeat split; auto.
  - cbn. repeat split; assumption.
Qed.

Lemma run_viewInvariant (actions : list TimelineView.Action) :
  forall st, viewInvariant st -> viewInvariant (fst (TimelineView.run st actions)).
Proof.
  induction actions as [|a actions IH]; intros st Hinv; [exact Hinv|].
  cbn [TimelineView.run].
  pose proof (step_viewInvariant st a Hinv) as Hstep.
  destruct (TimelineView.step st a) as [st1 posted]. cbn [fst] in Hstep.
  specialize (IH st1 Hstep).
  destruct (TimelineView.run st1 actions) as [st2 more]. exact IH.
Qed.

(** X20: however the view is used, [compareSnapshots.new] is [null] whenever
    a handler returns: no card is ever marked as the new side of a
    comparison and the badge [NEW] never shows. Outside compare mode no old
    side is held either, and the text of the compare button follows the
    mode. *)
Theorem new_side_never_marked (actions : list TimelineView.Action)
    (snapshotId : string) :
  let st := fst (TimelineView.run TimelineView.initial actions) in
  viewInvariant st
  /\ TimelineView.isCompareNew st snapshotId = EmptyString
  /\ TimelineView.compareLabel st snapshotId <> "NEW".
Proof.
  intros st.
  assert (Hinv : viewInvariant st).
  { apply run_viewInvariant. repeat split. }
  split; [exact Hinv|]. destruct Hinv as (Hnew & _ & _).
  unfold TimelineView.isCompareNew, TimelineView.compareLabel. rewrite Hnew.
  rewrite (bool_decide_eq_false_2 (None = Some snapshotId)) by discriminate.
  rewrite andb_false_r. split; [reflexivity|].
  destruct (TimelineView.compareMode st && _); discriminate.
Qed.

Lemma run_fromSelections (actions : list TimelineView.Action) :
  forall (seen : list TimelineView.Action) (st : TimelineView.State),
    TimelineView.compareNew st = None ->
    (forall old, TimelineView.compareOld st = Some old ->
                 In (TimelineView.Select old) seen) ->
    forall message, In message (snd (TimelineView.run st actions)) ->
                    fromSelections seen actions message.
Proof.
  induction actions as [|a actions IH]; intros seen st Hnew Hold message Hin.
  { destruct Hin. }
  cbn [TimelineView.run] in Hin.
  destruct (TimelineView.step st a) as [st1 posted] eqn:Hstep.
  destruct (TimelineView.run st1 actions) as [st2 more] eqn:Hrun.
  cbn [snd] in Hin. apply in_app_or in Hin.
  assert (Hlater : forall m, fromSelections (seen ++ [a]) actions m ->
                             fromSelections seen (a :: actions) m).
  { intros [i|old new| |i]; cbn [fromSelections]; try tauto.
    - intros H. right. exact H.
    - rewrite <- app_assoc. cbn [app]. intros (H1 & H2 & H3).
      repeat split; [exact H1|exact H2|right; exact H3]. }
  assert (Hstate : TimelineView.compareNew st1 = None
                   /\ (forall old, TimelineView.compareOld st1 = Some old ->
                                   In (TimelineView.Select old) (seen ++ [a]))
                   /\ forall m, In m posted -> fromSelections seen (a :: actions) m).
  { destruct a as [|snapshotId|]; cbn [TimelineView.step] in Hstep.
    - injection Hstep as <- <-. unfold TimelineView.toggleCompareMode.
      destruct (negb (TimelineView.compareMode st)); cbn;
        (split; [reflexivity|split; [discriminate|intros m []]]).
    - unfold TimelineView.selectSnapshot in Hstep. rewrite Hnew in Hstep.
      cbn [TimelineView.truthy negb] in Hstep.
      destruct (TimelineView.compareMode st).
      + destruct (TimelineView.compareOld st) as [old|] eqn:Eold;
          cbn [TimelineView.truthy negb] in Hstep.
        * destruct (String.eqb_spec old EmptyString) as [->|Hne];
            cbn [negb] in Hstep; injection Hstep as <- <-; cbn.
          -- split; [reflexivity|]. split; [|intros m []].
             intros o [= <-]. apply in_or_app. right. left. reflexivity.
          -- split; [reflexivity|]. split; [discriminate|].
             intros m [<-|[]]. cbn [fromSelections].
             split; [exact Hne|]. split; [|left; reflexivity].
             apply in_or_app. left. apply Hold. reflexivity.
        * injection Hstep as <- <-. cbn.
          split; [reflexivity|]. split; [|intros m []].
          intros o [= <-]. apply in_or_app. right. left. reflexivity.
      + injection Hstep as <- <-. cbn. split; [first [reflexivity|exact Hnew]|]. split.
        * intros o Ho. apply in_or_app. left. apply Hold, Ho.
        * intros m [<-|[]]. left. reflexivity.
    - injection Hstep as <- <-. cbn. split; [first [reflexivity|exact Hnew]|]. split; [|intros m []].
      intros o Ho. apply in_or_app. left. apply Hold, Ho. }
  destruct Hstate as (Hnew1 & Hold1 & Hposted).
  destruct Hin as [Hin|Hin]; [apply Hposted, Hin|].
  apply Hlater. apply (IH (seen ++ [a])%list st1 Hnew1 Hold1).
  rewrite Hrun. exact Hin.
Qed.

(** X21: every message the view posts while snapshots are selected, compare
    mode is toggled and details are displayed is a view of a snapshot that
    was selected, or a comparison of two snapshots that were both selected,
    the old one with a non-empty identifier. *)
Theorem view_posts_selected_only (actions : list TimelineView.Action)
    (message : ViewMessage) :
  In message (snd (TimelineView.run TimelineView.initial actions)) ->
  fromSelections [] actions message.
Proof.
  apply run_fromSelections; [reflexivity|]. intros old. discriminate.
Qed.

(** X22: outside compare mode, switching it on and selecting two snapshots
    posts exactly one comparison, of the first selected as the old side and
    the second as the new one; the view is then in compare mode with no
    side held, ready for the next pair. The two may be the same snapshot. *)
Theorem compare_two_selections (st : TimelineView.State) (old new : string) :
  TimelineView.compareMode st = false ->
  old <> EmptyString ->
  TimelineView.run st [ TimelineView.Toggle; TimelineView.Select old;
                        TimelineView.Select new ]
  = (TimelineView.toggleCompareMode st, [ CompareDiff old new ]).
Proof.
  intros Hmode Hold. cbn [TimelineView.run TimelineView.step].
  unfold TimelineView.toggleCompareMode. rewrite Hmode. cbn [negb].
  unfold TimelineView.selectSnapshot. cbn.
  destruct (String.eqb_spec old EmptyString) as [->|_]; [congruence|].
  reflexivity.
Qed.

(** * The timeline panel *)

Lemma restoreSnapshot_total (snapshotId : string) (w : World) :
  exists result w', restoreSnapshot snapshotId w = (inr result, w').
Proof.
  unfold restoreSnapshot, tryCatch.
  match goal with
  | |- context [match ?body w with _ => _ end] => destruct (body w) as [[e|r] w']
  end; eauto.
Qed.

(** X23: unless the user answers the confirmation with [Restore], the
    panel's restore writes nothing at all, no backup and no file, and does
    not refresh the timeline: when the identifier loads as no snapshot it
    shows that the snapshot is not found, and when it loads as a snapshot
    it shows the question only. *)
Theorem panel_restore_unconfirmed (toLocaleString : JsDate.Date -> string)
    (choice : option string) (snapshotId : string) (w : World) :
  choice <> Some "Restore" ->
  (fst (loadSnapshot snapshotId w) = inr None ->
   TimelinePanel.restoreSnapshot toLocaleString choice snapshotId w
   = (inr ([ ErrorMessage "Snapshot not found" ], false), w))
  /\ (forall target,
        fst (loadSnapshot snapshotId w) = inr (Some target) ->
        TimelinePanel.restoreSnapshot toLocaleString choice snapshotId w
        = (inr ([ WarningMessage (restoreQuestion toLocaleString target) ], false), w)).
Proof.
  intros Hchoice. unfold TimelinePanel.restoreSnapshot, mbind, M_bind.
  rewrite loadSnapshot_loaded. cbn [fst].
  destruct (loaded w snapshotId) as [found|]; split; try discriminate.
  - intros target [= <-]. rewrite (bool_decide_eq_false_2 _ Hchoice). reflexivity.
  - reflexivity.
Qed.

(** X24: when the identifier loads as a snapshot and the user confirms, the
    panel leaves the disk as the manager's [restoreSnapshot] leaves it; the
    timeline is refreshed exactly when that restore succeeded, in which
    case a message of success is shown after the question, and an error
    message is shown otherwise. *)
Theorem panel_restore_confirmed (toLocaleString : JsDate.Date -> string)
    (snapshotId : string) (target : Snapshot) (w : World) :
  fst (loadSnapshot snapshotId w) = inr (Some target) ->
  exists result shown w',
    restoreSnapshot snapshotId w = (inr result, w')
    /\ TimelinePanel.restoreSnapshot toLocaleString (Some "Restore") snapshotId w
       = (inr (WarningMessage (restoreQuestion toLocaleString target) :: shown,
               success result), w')
    /\ (success result = true -> exists text, shown = [ InformationMessage text ])
    /\ (success result = false -> exists text, shown = [ ErrorMessage text ]).
Proof.
  intros Hload. unfold TimelinePanel.restoreSnapshot, mbind, M_bind.
  rewrite loadSnapshot_loaded in *. cbn [fst] in Hload. injection Hload as ->.
  rewrite bool_decide_eq_true_2 by reflexivity. cbn [negb].
  destruct (restoreSnapshot_total snapshotId w) as (result & w' & ->).
  exists result. destruct (success result) eqn:Hok.
  - eexists _, w'. split; [reflexivity|]. split; [reflexivity|].
    split; [|discriminate]. intros _. eexists. reflexivity.
  - eexists _, w'. split; [reflexivity|]. split; [reflexivity|].
    split; [discriminate|]. intros _. eexists. reflexivity.
Qed.

(** * The commands of the extension *)

Lemma execute_snapshotManager (st : Extension.State) (c : Extension.Command) :
  Extension.snapshotManager (fst (Extension.execute st c))
  = Extension.snapshotManager st.
Proof.
  destruct c as [workspaceFolder| |]; cbn [Extension.execute fst];
    [unfold Extension.startWatching|unfold Extension.stopWatching|reflexivity].
  - destruct (Extension.fileWatcher st); [reflexivity|].
    destruct workspaceFolder; reflexivity.
  - destruct (Extension.fileWatcher st); reflexivity.
Qed.

Lemma executeAll_snapshotManager (commands : list Extension.Command) :
  forall st, Extension.snapshotManager (Extension.executeAll st commands)
             = Extension.snapshotManager st.
Proof.
  unfold Extension.executeAll.
  induction commands as [|c commands IH]; intros st; [reflexivity|].
  cbn [fold_left]. rewrite IH. apply execute_snapshotManager.
Qed.

Lemma getAllSnapshots_result (w : World) :
  getAllSnapshots w
  = (inr (omap (loaded w)
            (if snapshotsListable w
             then rev (sortStrings (map stem (jsonFiles w))) else [])), w).
Proof.
  unfold getAllSnapshots, mbind, M_bind.
  rewrite getAllSnapshotIds_result. apply loadEach_result.
Qed.

(** X25: the snapshot manager of the extension is made by [activate] only.
    When the extension was activated without a workspace folder, listing
    snapshots answers that Atlas is not initialized, whatever commands ran
    since, even after watching was started on a folder opened later. *)
Theorem manager_made_by_activate_only (toLocaleString : JsDate.Date -> string)
    (commands : list Extension.Command) (picked : option nat) (w : World) :
  Extension.listSnapshots toLocaleString picked
    (Extension.executeAll (fst (Extension.activate None)) commands) w
  = (inr [ ErrorMessage "Atlas is not initialized." ], w).
Proof.
  unfold Extension.listSnapshots.
  rewrite executeAll_snapshotManager. reflexivity.
Qed.

(** X26: stopping and starting again makes a fresh watcher: whatever was
    counted before, the status then reports no file changed and no last
    change. *)
Theorem restart_resets_statistics (st : Extension.State) (folder : string) :
  let stopped := fst (Extension.stopWatching st) in
  let started := fst (Extension.startWatching (Some folder) stopped) in
  Extension.fileWatcher stopped = None
  /\ Extension.showStatus started
     = [ InformationMessage
           "Atlas Status: Active | Files changed: 0 | Last change: None" ].
Proof.
  unfold Extension.stopWatching, Extension.startWatching.
  destruct (Extension.fileWatcher st) eqn:Hfw; cbn [fst Extension.fileWatcher].
  - split; reflexivity.
  - rewrite Hfw. split; reflexivity.
Qed.

(** X27: with a manager, when [getAllSnapshots] returns the snapshots
    [all], listing snapshots writes nothing. It shows the notice of an
    empty list when there is none; otherwise it shows the details of the
    entry picked, which is the snapshot at that position, and nothing when
    none is picked. *)
Theorem listSnapshots_outcome (toLocaleString : JsDate.Date -> string)
    (picked : option nat) (st : Extension.State) (w : World) (all : list Snapshot) :
  Extension.snapshotManager st = true ->
  fst (getAllSnapshots w) = inr all ->
  Extension.listSnapshots toLocaleString picked st w
  = (inr (match all, picked ≫= fun i => nth_error all i with
          | [], _ =>
              [ InformationMessage
                  "No snapshots yet. Edit some files to create snapshots!" ]
          | _, Some s =>
              [ InformationMessage (Extension.snapshotDetails toLocaleString s) ]
          | _, None => []
          end), w).
Proof.
  intros Hmanager Hall. unfold Extension.listSnapshots. rewrite Hmanager. cbn [negb].
  unfold mbind at 1. unfold M_bind.
  rewrite getAllSnapshots_result in *. cbn [fst] in Hall. injection Hall as Hall.
  rewrite Hall.
  destruct all as [|s all]; [reflexivity|].
  destruct picked as [i|]; [|reflexivity]. cbn [mbind option_bind].
  rewrite nth_error_map.
  destruct (nth_error (s :: all) i); reflexivity.
Qed.


(** * A restore that fails on the way *)

Lemma forEach_app_fail {A} (body : A -> M unit) (xs : list A) :
  forall (x : A) (ys : list A) (w w1 w2 : World) (e : Error),
    forEach xs body w = (inr tt, w1) ->
    body x w1 = (inl e, w2) ->
    forEach (xs ++ x :: ys) body w = (inl e, w2).
Proof.
  induction xs as [|a xs IH]; intros x ys w w1 w2 e Hxs Hx.
  - cbn in Hxs. injection Hxs as <-. cbn [app forEach]. unfold mbind, M_bind.
    rewrite Hx. reflexivity.
  - cbn [app forEach] in *. unfold mbind, M_bind in *.
    destruct (body a w) as [[e'|[]] wa]; [discriminate|].
    apply (IH _ _ _ _ _ _ Hxs Hx).
Qed.

(** X28: a restore is not undone when it fails on the way. For a snapshot
    whose captures are at workspace files: if the backup was written and
    the files before the failing one were written, the result reports the
    failure without naming the backup, the backup is nevertheless on disk
    and loads, and the files written before the failure keep the restored
    text. *)
Theorem failed_restore_is_partial (snapshotId backup : string) (target : Snapshot)
    (w wb w1 w2 : World) (before after : list FileSnapshot) (bad : FileSnapshot)
    (e : Error) :
  fst (loadSnapshot snapshotId w) = inr (Some target) ->
  forallb (fun f => workspaceFile (path f)) (files target) = true ->
  files target = (before ++ bad :: after)%list ->
  createBackupBeforeRestore w = (inr backup, wb) ->
  forEach before restoreFile wb = (inr tt, w1) ->
  restoreFile bad w1 = (inl e, w2) ->
  restoreSnapshot snapshotId w = (inr (failed e), w2)
  /\ (exists captures,
        loadSnapshot backup w2 = (inr (Some (backupSnapshot backup w captures)), w2))
  /\ forall done1 file done2,
       before = (done1 ++ file :: done2)%list ->
       ~ In (path file) (map path (done2 ++ [bad])) ->
       fileAt (resolvePath (path file)) (root w2) = Some (content file).
Proof.
  intros Hload _ Hfiles Hbackup Hbefore Hbad.
  pose proof (restoreFile_effect bad w1) as (Hdir2 & _ & Hframe2).
  rewrite Hbad in Hdir2, Hframe2. cbn [snd] in Hdir2, Hframe2.
  pose proof (restore_keeps_directory before wb) as Hdir1.
  rewrite Hbefore in Hdir1. cbn [snd] in Hdir1.
  split; [|split].
  - rewrite (restoreSnapshot_found _ _ _ Hload), Hbackup, Hfiles.
    rewrite (forEach_app_fail _ _ _ _ _ _ _ _ Hbefore Hbad). reflexivity.
  - rewrite createBackup_result in Hbackup.
    destruct (JsDate.toISOString (JsDate.Instant (now w))) as [e'|iso] eqn:Hiso;
      [discriminate|].
    destruct (walkDir [] (root w)) as [e'|allFiles]; [discriminate|].
    destruct (snapshotsWritable w); [|discriminate].
    injection Hbackup as <- <-.
    exists (capturesOf (root w) allFiles).
    rewrite loadSnapshot_loaded. unfold loaded. rewrite Hdir2, Hdir1.
    cbn [snapshotsDir setSnapshotsDir]. rewrite lookup_insert_eq.
    unfold ofStored, backupRecord, backupSnapshot. cbn.
    rewrite (ofString_toISOString _ _ Hiso). reflexivity.
  - intros done1 file done2 Hsplit Hlast. subst before.
    rewrite map_app, in_app_iff in Hlast.
    rewrite Hframe2.
    + apply (forEach_last_writer _ _ _ _ _ Hbefore). tauto.
    + intros [Hsame|[]]. apply resolvePath_inj in Hsame.
      apply Hlast. right. left. exact Hsame.
Qed.

(** * The theorems at sample inputs *)

Lemma restore_not_found_witness :
  fst (loadSnapshot "nonexistent-id" sampleWorld) = inr None
  /\ restoreSnapshot "nonexistent-id" sampleWorld = (inr notFound, sampleWorld).
Proof.
  assert (H : fst (loadSnapshot "nonexistent-id" sampleWorld) = inr None)
    by (vm_compute; reflexivity).
  split; [exact H|]. apply (restore_not_found "nonexistent-id" sampleWorld H).
Defined.

Lemma loadSnapshot_absent_witness :
  recordReadable "nonexistent-id" sampleWorld = false
  /\ loadSnapshot "nonexistent-id" sampleWorld = (inr None, sampleWorld).
Proof.
  assert (H : recordReadable "nonexistent-id" sampleWorld = false)
    by (vm_compute; reflexivity).
  split; [exact H|].
  apply (proj2 (loadSnapshot_absent "nonexistent-id" sampleWorld) H).
Defined.

Lemma snapshot_round_trip_witness :
  exists text w',
    serialize sampleSnapshot = inr text
    /\ deserialize text = inr sampleSnapshot
    /\ saveSnapshot sampleSnapshot sampleWorld = (inr tt, w')
    /\ loadSnapshot "snapshot_20240101_100000_a1b2c3" w'
       = (inr (Some sampleSnapshot), w')
    /\ root w' = root sampleWorld.
Proof.
  apply (snapshot_round_trip sampleSnapshot 1704103200123 sampleWorld);
    reflexivity.
Defined.

Lemma unchanged_files_omitted_witness :
  fileDiffsHtml (fun _ _ => []) sampleSnapshot sampleSnapshot = EmptyString.
Proof.
  apply (proj2 (unchanged_files_omitted (fun _ _ => []) sampleSnapshot sampleSnapshot)).
  intros filePath Hin.
  assert (Hp : filePath = "a.txt")
    by (vm_compute in Hin; destruct Hin as [[<-|[]]|[<-|[]]]; reflexivity).
  subst filePath.
  exists (captureOf ["a.txt"] "hello"), (captureOf ["a.txt"] "hello").
  repeat split.
Defined.


Lemma backup_before_restore_witness :
  fst (createBackupBeforeRestore afterCapture)
  = inr "backup_snapshot_20240101_100000_a1b2c3"
  /\ match createBackupBeforeRestore afterCapture with
     | (inl e, _) =>
         restoreSnapshot "snapshot_20240101_100000_a1b2c3" afterCapture
         = (inr (failed e), afterCapture)
     | (inr backup, wb) =>
         exists (record : StoredSnapshot) (writes : list Event),
           String.prefix "backup_" backup = true
           /\ stored_id record = backup
           /\ stored_trigger record = manual
           /\ (forall segs text,
                  lookupNode segs (root afterCapture) = Some (File text true) ->
                  walkIgnores (relativePath segs) = false ->
                  In (captureOf segs text) (stored_files record))
           /\ root wb = root afterCapture
           /\ journal (snd (restoreSnapshot "snapshot_20240101_100000_a1b2c3" afterCapture))
              = (journal afterCapture
                 ++ EvPut (backup ++ ".json") (TextOf record) :: writes)%list
           /\ forallb isWorkspaceEvent writes = true
           /\ snapshotsDir wb !! (backup ++ ".json") = Some (Plain (TextOf record))
     end.
Proof.
  split; [vm_compute; reflexivity|].
  apply (backup_before_restore "snapshot_20240101_100000_a1b2c3" sampleSnapshot
           afterCapture).
  vm_compute. reflexivity.
Defined.

Lemma getAllSnapshotIds_sorted_witness :
  snapshotsListable afterRestore = true
  /\ exists ids,
       getAllSnapshotIds afterRestore = (inr ids, afterRestore)
       /\ Sorted stringGe ids
       /\ Permutation ids (map stem (jsonFiles afterRestore)).
Proof.
  assert (H : snapshotsListable afterRestore = true) by (vm_compute; reflexivity).
  split; [exact H|].
  destruct (getAllSnapshotIds_sorted afterRestore) as (ids & Hrun & Hsorted & Hperm).
  exists ids. split; [exact Hrun|]. split; [exact Hsorted|exact (Hperm H)].
Defined.

Lemma unlistable_directory_is_empty_witness :
  snapshotsListable hiddenWorld = false
  /\ getAllSnapshots hiddenWorld = (inr [], hiddenWorld)
  /\ getSnapshotCount hiddenWorld = (inr 0%nat, hiddenWorld).
Proof.
  split; [reflexivity|].
  exact (proj2 (unlistable_directory_is_empty hiddenWorld eq_refl)).
Defined.

Lemma getAllSnapshots_skips_unreadable_witness :
  snapshotsListable afterRestore = true
  /\ exists ids,
       getAllSnapshots afterRestore = (inr (omap (loaded afterRestore) ids), afterRestore)
       /\ List.length ids = List.length (jsonFiles afterRestore).
Proof.
  assert (H : snapshotsListable afterRestore = true) by (vm_compute; reflexivity).
  split; [exact H|].
  destruct (getAllSnapshots_skips_unreadable afterRestore)
    as (ids & _ & Hall & _ & _ & Hcount).
  exists ids. split; [exact Hall|exact (Hcount H)].
Defined.

Lemma deleteSnapshot_removes_witness :
  fst (deleteSnapshot "snapshot_20240101_100000_a1b2c3" afterCapture) = inr true
  /\ loadSnapshot "snapshot_20240101_100000_a1b2c3"
       (snd (deleteSnapshot "snapshot_20240101_100000_a1b2c3" afterCapture))
     = (inr None, snd (deleteSnapshot "snapshot_20240101_100000_a1b2c3" afterCapture)).
Proof.
  assert (H : fst (deleteSnapshot "snapshot_20240101_100000_a1b2c3" afterCapture)
              = inr true) by (vm_compute; reflexivity).
  split; [exact H|].
  exact (proj1 (deleteSnapshot_removes "snapshot_20240101_100000_a1b2c3" afterCapture
                  eq_refl H)).
Defined.

Lemma deleteSnapshot_missing_witness :
  snapshotsDir sampleWorld !! ("nonexistent-id" ++ ".json") = None
  /\ exists answer,
       fst (deleteSnapshot "nonexistent-id" sampleWorld) = inr answer
       /\ answer = false.
Proof.
  assert (H : snapshotsDir sampleWorld !! ("nonexistent-id" ++ ".json") = None)
    by (vm_compute; reflexivity).
  split; [exact H|].
  destruct (deleteSnapshot_missing "nonexistent-id" sampleWorld)
    as (answer & Hrun & Hmissing & _).
  exists answer. split; [exact Hrun|exact (Hmissing H)].
Defined.

Lemma createSnapshot_stored_witness :
  exists s w',
    createSnapshot ["bin.dat"] file_save binaryWorld = (inr (Some s), w')
    /\ loadSnapshot "snapshot_20240101_100000_a1b2c3" w' = (inr (Some s), w')
    /\ map content (files s)
       = [ String "239" (String "191" (String "189" (String "A" EmptyString))) ]
    /\ map size (files s) = [ 2 ].
Proof.
  destruct (createSnapshot ["bin.dat"] file_save binaryWorld) as [[e|[s|]] w'] eqn:Hrun;
    try (vm_compute in Hrun; discriminate).
  assert (Hid : id s = "snapshot_20240101_100000_a1b2c3").
  { vm_compute in Hrun. injection Hrun as <- _. reflexivity. }
  assert (Hname : fileName (id s ++ ".json") = true).
  { rewrite Hid. reflexivity. }
  destruct (createSnapshot_stored ["bin.dat"] file_save binaryWorld w' s Hrun Hname)
    as (Hload & (bytes & Hread & _ & Hcontent & Hsize) & _).
  assert (Hbytes : bytes = String "255" (String "A" EmptyString)).
  { vm_compute in Hread. injection Hread as <-. reflexivity. }
  exists s, w'. split; [reflexivity|]. rewrite <- Hid.
  split; [exact Hload|]. rewrite Hcontent, Hsize, Hbytes. split; reflexivity.
Defined.

Lemma createSnapshot_null_witness :
  snapshotsWritable hiddenWorld = true
  /\ (forall text, readNode ["secret.txt"] (root lockedWorld) <> inr text)
  /\ exists result,
       fst (createSnapshot ["secret.txt"] file_save lockedWorld) = inr result
       /\ result = None.
Proof.
  assert (H : forall text, readNode ["secret.txt"] (root lockedWorld) <> inr text)
    by (intros text; vm_compute; discriminate).
  split; [reflexivity|]. split; [exact H|].
  destruct (createSnapshot_null ["secret.txt"] file_save lockedWorld)
    as (result & Hrun & _ & _ & Hunreadable & _).
  exists result. split; [exact Hrun|exact (Hunreadable H)].
Defined.

Lemma restore_writes_captures_witness :
  fileAt ["a.txt"] (root editedWorld) = Some "changed"
  /\ fileAt ["a.txt"]
       (root (snd (restoreSnapshot "snapshot_20240101_100000_a1b2c3" editedWorld)))
     = Some "hello".
Proof.
  split; [vm_compute; reflexivity|].
  apply (restore_writes_captures "snapshot_20240101_100000_a1b2c3" sampleSnapshot
           editedWorld _ (restored "backup_snapshot_20240101_110000_d4e5f6")
           [] (captureOf ["a.txt"] "hello") []).
  - vm_compute. reflexivity.
  - vm_compute. reflexivity.
  - vm_compute. reflexivity.
  - reflexivity.
  - reflexivity.
  - intros [].
Defined.

Lemma restore_result_shape_witness :
  exists result backup captures,
    fst (restoreSnapshot "snapshot_20240101_100000_a1b2c3" editedWorld) = inr result
    /\ success result = true
    /\ backupId result = Some backup
    /\ loadSnapshot backup
         (snd (restoreSnapshot "snapshot_20240101_100000_a1b2c3" editedWorld))
       = (inr (Some (backupSnapshot backup editedWorld captures)),
          snd (restoreSnapshot "snapshot_20240101_100000_a1b2c3" editedWorld)).
Proof.
  destruct (restore_result_shape "snapshot_20240101_100000_a1b2c3" sampleSnapshot
              editedWorld) as (result & Hrun & Hok & _).
  - vm_compute. reflexivity.
  - vm_compute. reflexivity.
  - assert (H : success result = true).
    { assert (Hfst : fst (restoreSnapshot "snapshot_20240101_100000_a1b2c3" editedWorld)
                     = inr (restored "backup_snapshot_20240101_110000_d4e5f6"))
        by (vm_compute; reflexivity).
      rewrite Hfst in Hrun. injection Hrun as <-. reflexivity. }
    destruct (Hok H) as (backup & captures & Hbackup & _ & Hload).
    exists result, backup, captures.
    split; [exact Hrun|]. split; [exact H|]. split; [exact Hbackup|exact Hload].
Defined.

Lemma backup_holds_workspace_files_witness :
  walkIgnores "src/app.ts" = false
  /\ exists filePath bytes,
       readNode filePath (root afterCapture) = inr bytes
       /\ "src/app.ts" = relativePath filePath
       /\ "code" = JsString.utf8Decode bytes
       /\ 4 = Z.of_nat (String.length bytes).
Proof.
  apply (backup_holds_workspace_files "snapshot_20240101_100000_a1b2c3" sampleSnapshot
           afterCapture
           (restored "backup_snapshot_20240101_100000_a1b2c3")
           "backup_snapshot_20240101_100000_a1b2c3"
           (backupSnapshot "backup_snapshot_20240101_100000_a1b2c3" afterCapture
              [ captureOf ["a.txt"] "hello"; captureOf ["package-lock.json"] "{}";
                captureOf ["src"; "app.ts"] "code" ])
           {| path := "src/app.ts"; content := "code"; size := 4 |}).
  - vm_compute. reflexivity.
  - vm_compute. reflexivity.
  - vm_compute. reflexivity.
  - reflexivity.
  - reflexivity.
  - vm_compute. reflexivity.
  - right. right. left. reflexivity.
Defined.


Lemma generateSnapshotId_format_witness :
  0 <= now sampleWorld <= 253402300799999
  /\ generateSnapshotId sampleWorld
     = (inr "snapshot_20240101_100000_a1b2c3", sampleWorld).
Proof.
  assert (H : 0 <= now sampleWorld <= 253402300799999)
    by (vm_compute; split; discriminate).
  split; [exact H|].
  exact (proj1 (generateSnapshotId_format sampleWorld H)).
Defined.

Lemma escapeHtml_no_markup_witness :
  In "<"%char markupChars
  /\ hasChar "<" (escapeHtml "<b>Tom & Jerry</b>") = false
  /\ escapeHtml "const x = 1;" = "const x = 1;".
Proof.
  assert (H : In "<"%char markupChars) by (left; reflexivity).
  split; [exact H|]. split.
  - exact (proj1 (escapeHtml_no_markup "<b>Tom & Jerry</b>") _ H).
  - apply (proj2 (escapeHtml_no_markup "const x = 1;")).
    intros c [<-|[<-|[<-|[<-|[<-|[]]]]]]; reflexivity.
Defined.

Lemma diffs_one_entry_per_path_witness :
  In "a.txt" (map path (files sampleSnapshot))
  /\ In "a.txt" (map diffPath (diffs (fun _ _ => []) sampleSnapshot sampleSnapshot)).
Proof.
  assert (H : In "a.txt" (map path (files sampleSnapshot))) by (left; reflexivity).
  split; [exact H|].
  apply (proj2 (diffs_one_entry_per_path (fun _ _ => []) sampleSnapshot sampleSnapshot)).
  left. exact H.
Defined.

Lemma entry_omitted_iff_unchanged_witness :
  findFile sampleSnapshot "a.txt" = Some (captureOf ["a.txt"] "hello")
  /\ generateFileDiffHtml (fileDiffOf (fun _ _ => []) sampleSnapshot sampleSnapshot "a.txt")
     = EmptyString.
Proof.
  assert (H : findFile sampleSnapshot "a.txt" = Some (captureOf ["a.txt"] "hello"))
    by reflexivity.
  split; [exact H|].
  apply (proj2 (entry_omitted_iff_unchanged (fun _ _ => []) sampleSnapshot
                  sampleSnapshot "a.txt")).
  exists (captureOf ["a.txt"] "hello"), (captureOf ["a.txt"] "hello").
  split; [exact H|]. split; [exact H|reflexivity].
Defined.

Lemma watcher_drops_ignored_directory_witness :
  FileWatcher.onFileChanged sampleClock (FileWatcher.start FileWatcher.create)
    ["node_modules"; "x.js"] changed sampleWorld
  = (inr (FileWatcher.start FileWatcher.create, []), sampleWorld).
Proof.
  apply (watcher_drops_ignored_directory sampleClock _ _ "node_modules" "node_modules").
  - left. reflexivity.
  - left. reflexivity.
  - reflexivity.
Defined.

Lemma watcher_captures_file_witness :
  exists self' w',
    FileWatcher.lastChangeTime self' = Some "10:00:00"
    /\ loadSnapshot "snapshot_20240101_100000_a1b2c3" w'
       = (inr (Some sampleSnapshot), w').
Proof.
  destruct (watcher_captures_file sampleClock (FileWatcher.start FileWatcher.create)
              ["a.txt"] changed sampleWorld "hello" "2024-01-01T10:00:00.123Z")
    as (self' & w' & _ & Hload & Htime).
  - reflexivity.
  - discriminate.
  - reflexivity.
  - vm_compute. reflexivity.
  - reflexivity.
  - vm_compute. reflexivity.
  - exists self', w'. split; [exact Htime|exact Hload].
Defined.

Lemma watcher_event_without_capture_witness :
  snd (FileWatcher.onFileChanged sampleClock (FileWatcher.start FileWatcher.create)
         ["a.txt"] deleted sampleWorld) = sampleWorld.
Proof.
  rewrite (watcher_event_without_capture sampleClock _ ["a.txt"] deleted sampleWorld).
  - reflexivity.
  - reflexivity.
  - left. reflexivity.
Defined.

Lemma view_posts_selected_only_witness :
  fromSelections []
    [ TimelineView.Toggle; TimelineView.Select "one"; TimelineView.Select "two" ]
    (CompareDiff "one" "two").
Proof.
  apply view_posts_selected_only. left. reflexivity.
Defined.

Lemma compare_two_selections_witness :
  TimelineView.run TimelineView.initial
    [ TimelineView.Toggle; TimelineView.Select "one"; TimelineView.Select "two" ]
  = (TimelineView.toggleCompareMode TimelineView.initial, [ CompareDiff "one" "two" ]).
Proof.
  apply compare_two_selections; [reflexivity|discriminate].
Defined.

Lemma panel_restore_unconfirmed_witness :
  TimelinePanel.restoreSnapshot sampleClock (Some "Cancel")
    "snapshot_20240101_100000_a1b2c3" editedWorld
  = (inr ([ WarningMessage (restoreQuestion sampleClock sampleSnapshot) ], false),
     editedWorld).
Proof.
  apply (proj2 (panel_restore_unconfirmed sampleClock (Some "Cancel")
                  "snapshot_20240101_100000_a1b2c3" editedWorld ltac:(discriminate))).
  vm_compute. reflexivity.
Defined.

Lemma panel_restore_confirmed_witness :
  exists result shown w',
    restoreSnapshot "snapshot_20240101_100000_a1b2c3" editedWorld = (inr result, w')
    /\ TimelinePanel.restoreSnapshot sampleClock (Some "Restore")
         "snapshot_20240101_100000_a1b2c3" editedWorld
       = (inr (WarningMessage (restoreQuestion sampleClock sampleSnapshot) :: shown,
               success result), w')
    /\ success result = true
    /\ exists text, shown = [ InformationMessage text ].
Proof.
  destruct (panel_restore_confirmed sampleClock "snapshot_20240101_100000_a1b2c3"
              sampleSnapshot editedWorld)
    as (result & shown & w' & Hrun & Hpanel & Hok & _).
  - vm_compute. reflexivity.
  - assert (Hfirst : fst (restoreSnapshot "snapshot_20240101_100000_a1b2c3" editedWorld)
                     = inr (restored "backup_snapshot_20240101_110000_d4e5f6"))
      by (vm_compute; reflexivity).
    assert (Hsuccess : success result = true).
    { pose proof (f_equal fst Hrun) as Hfst. cbn [fst] in Hfst.
      rewrite Hfirst in Hfst. apply (inj inr) in Hfst. rewrite <- Hfst. reflexivity. }
    exists result, shown, w'. split; [exact Hrun|]. split; [exact Hpanel|].
    split; [exact Hsuccess|exact (Hok Hsuccess)].
Defined.

Lemma listSnapshots_outcome_witness :
  Extension.snapshotManager (fst (Extension.activate (Some "/work"))) = true
  /\ fst (getAllSnapshots afterCapture) = inr [ sampleSnapshot ]
  /\ fst (Extension.listSnapshots sampleClock (Some 0%nat)
            (fst (Extension.activate (Some "/work"))) afterCapture)
     = inr [ InformationMessage (Extension.snapshotDetails sampleClock sampleSnapshot) ].
Proof.
  assert (Hsample : fst (getAllSnapshots afterCapture) = inr [ sampleSnapshot ])
    by (vm_compute; reflexivity).
  split; [reflexivity|]. split; [exact Hsample|].
  rewrite (listSnapshots_outcome sampleClock (Some 0%nat)
             (fst (Extension.activate (Some "/work"))) afterCapture [ sampleSnapshot ]
             eq_refl Hsample).
  reflexivity.
Defined.

Lemma failed_restore_is_partial_witness :
  restoreSnapshot "snapshot_20240101_090000_0f0f0f" brokenWorld
  = (inr (failed ENOTDIR),
     snd (restoreSnapshot "snapshot_20240101_090000_0f0f0f" brokenWorld))
  /\ fileAt ["a.txt"] (root brokenWorld) = Some "hello"
  /\ fileAt ["a.txt"]
       (root (snd (restoreSnapshot "snapshot_20240101_090000_0f0f0f" brokenWorld)))
     = Some "old".
Proof.
  destruct (failed_restore_is_partial "snapshot_20240101_090000_0f0f0f"
              "backup_snapshot_20240101_100000_a1b2c3" (ofStored brokenSnapshot)
              brokenWorld
              (snd (createBackupBeforeRestore brokenWorld))
              (snd (forEach [ {| path := "a.txt"; content := "old"; size := 3 |} ]
                      restoreFile (snd (createBackupBeforeRestore brokenWorld))))
              (snd (restoreSnapshot "snapshot_20240101_090000_0f0f0f" brokenWorld))
              [ {| path := "a.txt"; content := "old"; size := 3 |} ] []
              {| path := "a.txt/x"; content := "y"; size := 1 |} ENOTDIR)
    as (Hrun & _ & Hdone).
  - vm_compute. reflexivity.
  - vm_compute. reflexivity.
  - reflexivity.
  - vm_compute. reflexivity.
  - vm_compute. reflexivity.
  - vm_compute. reflexivity.
  - split; [exact Hrun|]. split; [vm_compute; reflexivity|].
    apply (Hdone [] {| path := "a.txt"; content := "old"; size := 3 |} []).
    + reflexivity.
    + intros [H|[]]. discriminate H.
Defined.
